(** * uni: the build / watch / run supervisor

    A model of [buildAndWatch.Run] (the control loop and the watcher relay)
    and of [cmdProcess] ([internal/run.go]).

    The Go program is concurrent: the control loop (the goroutine of line 79),
    the relay (line 152) or the context watcher (line 172), and one goroutine
    per started child that parks in [proc.Wait()] (line 106) communicate over
    the channels [abort], [restart] and [done].  The model is a transition
    system: a state holds the channels, the process objects and the program
    counter and locals of every goroutine; an action names the goroutine that
    moves (for a [select], the case that fires) together with what the outside
    world answers (the result of a system call, of a rebuild, the exit status
    of a child); [step] is the executable transition function and [exec] runs
    a schedule. *)

From Stdlib Require Import ZArith Lia String.
From stdpp Require Import base tactics option list pretty strings gmap.

Open Scope Z_scope.

(** ** Errors *)

(** A Go [error] value that is not nil.  [Errno] stands for the errors of the
    operating system and of the libraries, [ExitError] for [*exec.ExitError],
    [Errorf] for the values made with [fmt.Errorf] and [Wrapf] for those whose
    format has a [%w] operand (the wrapped error). *)
Inductive error : Type :=
| Errno (msg : string)
| ExitError (code : Z)
| Errorf (msg : string)
| Wrapf (msg : string) (wrapped : error).

(** The Go type [error]: [None] is nil. *)
Definition goerror : Type := option error.

Definition Unwrap (e : error) : goerror :=
  match e with
  | Wrapf _ w => Some w
  | _ => None
  end.

(** [fmt.Errorf("build error")], line 82 of the supervisor. *)
Definition build_error : error := Errorf "build error".

(** ** Time *)

(** [time.Duration] counts nanoseconds. *)
Definition Nanosecond : Z := 1.
Definition Millisecond : Z := 1000000 * Nanosecond.
Definition Second : Z := 1000 * Millisecond.

(** [var maxProcStopWait = 5 * time.Second] *)
Definition maxProcStopWait : Z := 5 * Second.

(** The operand of [time.After] at line 123. *)
Definition restartQuiet : Z := 50 * Millisecond.

(** ** Processes: [cmdProcess] *)

Inductive Signal : Type := SIGTERM | SIGKILL.

(** The calls [Stop] makes to the operating system. *)
Inductive syscall : Type :=
| SysKill (pid : Z) (sig : Signal)     (* syscall.Kill(pid, sig) *)
| ProcessKill (pid : Z).               (* proc.cmd.Process.Kill() *)

(** What a method does besides returning: calls, sleeping, and goroutines it
    leaves behind (with what they will do). *)
Inductive effect : Type :=
| Call (c : syscall)
| Sleep (d : Z)
| Go (body : list effect).

(** [cmd.Process] is nil until [cmd.Start] has succeeded; afterwards it holds
    the pid of the child.  The child is started with [Setpgid: true], so its
    pid is also the id of its process group, and a negative pid given to
    [syscall.Kill] addresses the whole group. *)
Record cmdProcess : Type := { Process : option Z }.

Definition isWindows (goos : string) : bool := String.eqb goos "windows".

Section CmdProcess.
(** [runtime.GOOS], and the answer of the operating system to a call. *)
Variable GOOS : string.
Variable os : syscall -> goerror.

(** [func (proc *cmdProcess) Stop() error]: the effects, in program order,
    and the returned error. *)
Definition Stop (proc : cmdProcess) : list effect * goerror :=
  match Process proc with
  | None => ([], None)
  | Some pid =>
      if isWindows GOOS then
        ([Call (ProcessKill pid)], os (ProcessKill pid))
      else
        ([Go [Sleep maxProcStopWait; Call (SysKill (- pid) SIGKILL)];
          Call (SysKill (- pid) SIGTERM)],
         os (SysKill (- pid) SIGTERM))
  end.
End CmdProcess.

(** The time the caller of a method spends asleep: the [Sleep]s of its own
    body, not those of the goroutines it starts. *)
Fixpoint blocked_for (es : list effect) : Z :=
  match es with
  | [] => 0
  | Sleep d :: es' => d + blocked_for es'
  | _ :: es' => blocked_for es'
  end.

(** ** The supervisor state *)

(** [api.BuildResult], as far as the supervisor reads it. *)
Record BuildResult : Type := { Errors : list string }.

(** One value returned by [opts.CreateProcess()], with the [done] channel of
    the iteration that created it (both are made afresh at lines 88-89, and
    only that iteration and the goroutine of line 106 hold them). *)
Record procState : Type := {
  cmd : cmdProcess;
  exited : option goerror;     (* the child has exited, with this status *)
  waiter : bool;               (* the goroutine of line 106 is in proc.Wait() *)
  done : option goerror;       (* the content of [done], capacity 1 *)
  stopped : option goerror     (* what Stop returned, once it was called *)
}.

Definition newProc : procState :=
  {| cmd := {| Process := None |}; exited := None; waiter := false;
     done := None; stopped := None |}.

(** Where the control loop stands (line numbers of the supervisor). *)
Inductive ctlPC : Type :=
| CEntry                      (* 80 *)
| CTop                        (* 88 *)
| CStart                      (* 99: proc.Start() *)
| CSelect                     (* 111 *)
| CAbortStop                  (* 113: proc.Stop() *)
| CAbortWait                  (* 116: waitDone() *)
| CDrain (deadline : Z)       (* 124: select on restart and delay *)
| CRestartStop                (* 130: proc.Stop() *)
| CRestartWait                (* 133: waitDone() *)
| CRebuild                    (* 135 *)
| CReturned (r : goerror).

(** Where the second goroutine stands: the relay of line 152 in watch mode,
    the context watcher of line 172 otherwise. *)
Inductive sidePC : Type :=
| RIdle                       (* 154: the relay's select *)
| RSending                    (* 159: restart <- struct{}{} *)
| RReturned (r : goerror)
| XWait                       (* 173: <-ctx.Done() *)
| XDone.

Record state : Type := {
  now : Z;                    (* the clock, in nanoseconds *)
  ctxDone : bool;             (* ctx has been cancelled *)
  abort : bool;               (* the abort channel has been closed *)
  restart : nat;              (* signals queued in restart *)
  procs : list procState;     (* every process value made so far *)
  pc : ctlPC;
  result : BuildResult;
  waitForChange : bool;
  proc : nat;                 (* the loop's [proc]: an index into [procs] *)
  side : sidePC;
  gerr : goerror;             (* errgroup: the first error returned *)
  oslog : list effect         (* what the Stop calls did, oldest first *)
}.

(** [make(chan struct{}, 1)], line 77. *)
Definition restartCap : nat := 1.

(** Field updates. *)
Definition set_now (v : Z) (s : state) : state :=
  {| now := v; ctxDone := ctxDone s; abort := abort s; restart := restart s;
     procs := procs s; pc := pc s; result := result s;
     waitForChange := waitForChange s; proc := proc s; side := side s;
     gerr := gerr s; oslog := oslog s |}.
Definition set_ctxDone (v : bool) (s : state) : state :=
  {| now := now s; ctxDone := v; abort := abort s; restart := restart s;
     procs := procs s; pc := pc s; result := result s;
     waitForChange := waitForChange s; proc := proc s; side := side s;
     gerr := gerr s; oslog := oslog s |}.
Definition set_abort (v : bool) (s : state) : state :=
  {| now := now s; ctxDone := ctxDone s; abort := v; restart := restart s;
     procs := procs s; pc := pc s; result := result s;
     waitForChange := waitForChange s; proc := proc s; side := side s;
     gerr := gerr s; oslog := oslog s |}.
Definition set_restart (v : nat) (s : state) : state :=
  {| now := now s; ctxDone := ctxDone s; abort := abort s; restart := v;
     procs := procs s; pc := pc s; result := result s;
     waitForChange := waitForChange s; proc := proc s; side := side s;
     gerr := gerr s; oslog := oslog s |}.
Definition set_procs (v : list procState) (s : state) : state :=
  {| now := now s; ctxDone := ctxDone s; abort := abort s; restart := restart s;
     procs := v; pc := pc s; result := result s;
     waitForChange := waitForChange s; proc := proc s; side := side s;
     gerr := gerr s; oslog := oslog s |}.
Definition set_pc (v : ctlPC) (s : state) : state :=
  {| now := now s; ctxDone := ctxDone s; abort := abort s; restart := restart s;
     procs := procs s; pc := v; result := result s;
     waitForChange := waitForChange s; proc := proc s; side := side s;
     gerr := gerr s; oslog := oslog s |}.
Definition set_result (v : BuildResult) (s : state) : state :=
  {| now := now s; ctxDone := ctxDone s; abort := abort s; restart := restart s;
     procs := procs s; pc := pc s; result := v;
     waitForChange := waitForChange s; proc := proc s; side := side s;
     gerr := gerr s; oslog := oslog s |}.
Definition set_waitForChange (v : bool) (s : state) : state :=
  {| now := now s; ctxDone := ctxDone s; abort := abort s; restart := restart s;
     procs := procs s; pc := pc s; result := result s;
     waitForChange := v; proc := proc s; side := side s;
     gerr := gerr s; oslog := oslog s |}.
Definition set_proc (v : nat) (s : state) : state :=
  {| now := now s; ctxDone := ctxDone s; abort := abort s; restart := restart s;
     procs := procs s; pc := pc s; result := result s;
     waitForChange := waitForChange s; proc := v; side := side s;
     gerr := gerr s; oslog := oslog s |}.
Definition set_side (v : sidePC) (s : state) : state :=
  {| now := now s; ctxDone := ctxDone s; abort := abort s; restart := restart s;
     procs := procs s; pc := pc s; result := result s;
     waitForChange := waitForChange s; proc := proc s; side := v;
     gerr := gerr s; oslog := oslog s |}.
Definition set_gerr (v : goerror) (s : state) : state :=
  {| now := now s; ctxDone := ctxDone s; abort := abort s; restart := restart s;
     procs := procs s; pc := pc s; result := result s;
     waitForChange := waitForChange s; proc := proc s; side := side s;
     gerr := v; oslog := oslog s |}.
Definition set_oslog (v : list effect) (s : state) : state :=
  {| now := now s; ctxDone := ctxDone s; abort := abort s; restart := restart s;
     procs := procs s; pc := pc s; result := result s;
     waitForChange := waitForChange s; proc := proc s; side := side s;
     gerr := gerr s; oslog := v |}.

Definition set_cmd (v : cmdProcess) (p : procState) : procState :=
  {| cmd := v; exited := exited p; waiter := waiter p; done := done p;
     stopped := stopped p |}.
Definition set_exited (v : option goerror) (p : procState) : procState :=
  {| cmd := cmd p; exited := v; waiter := waiter p; done := done p;
     stopped := stopped p |}.
Definition set_waiter (v : bool) (p : procState) : procState :=
  {| cmd := cmd p; exited := exited p; waiter := v; done := done p;
     stopped := stopped p |}.
Definition set_done (v : option goerror) (p : procState) : procState :=
  {| cmd := cmd p; exited := exited p; waiter := waiter p; done := v;
     stopped := stopped p |}.
Definition set_stopped (v : option goerror) (p : procState) : procState :=
  {| cmd := cmd p; exited := exited p; waiter := waiter p; done := done p;
     stopped := v |}.

(** The process value the loop's [proc] points to. *)
Definition curProc (s : state) : option procState := procs s !! proc s.

(** An update of the process value at index [i]. *)
Definition updProc (i : nat) (f : procState -> procState) (s : state) : state :=
  set_procs (alter f i (procs s)) s.

(** ** Actions *)

(** What a receive yields: a value, or the zero value of a closed channel. *)
Inductive recv (A : Type) : Type :=
| Received (v : A)
| Closed.
Arguments Received {A} v.
Arguments Closed {A}.

(** [err, ok := <-watcher.Errors] *)
Definition recv_error (m : recv error) : goerror * bool :=
  match m with
  | Received e => (Some e, true)
  | Closed => (None, false)
  end.

(** The answer of [cmd.Start()]. *)
Inductive startResult : Type :=
| StartOK (pid : Z)
| StartErr (e : error).

Inductive action : Type :=
(* the outside world *)
| Tick (d : Z)                        (* time passes *)
| Cancel                              (* ctx is cancelled *)
| ProcExit (i : nat) (st : goerror)   (* the child of procs[i] exits *)
(* the goroutine of line 106 *)
| WaiterSend (i : nat)                (* done <- proc.Wait() *)
(* the goroutine of line 172 *)
| CtxClose                            (* <-ctx.Done(); close(abort) *)
(* the control loop *)
| CtlEnter
| CtlCreate
| CtlStart (r : startResult)
| CtlSelAbort
| CtlSelRestart
| CtlSelDone
| CtlDrainRestart
| CtlDrainDelay
| CtlStop (r : goerror)               (* r: the answer to Stop's system call *)
| CtlWaitDone
| CtlRebuild (r : BuildResult)
(* the relay *)
| RelayEvent                          (* a value from watcher.Events *)
| RelayEventsClosed                   (* watcher.Events is closed *)
| RelaySend                           (* restart <- struct{}{} completes *)
| RelayErrors (m : recv error)        (* a receive from watcher.Errors *)
| RelayCtxDone.                       (* <-ctx.Done() *)

(** ** The supervisor: [buildAndWatch.Run] *)

(** The options [Run] reads: [opts.Watch], [opts.Esbuild.EntryPoints] and
    [opts.Repository.RootDir].  [opts.CreateProcess] is the one [Run] of
    [internal/run.go] passes for a run that is not build-only: it returns a
    fresh [cmdProcess].  (A build-only run uses [funcProcess], whose
    declaration is not part of the sources at hand, and never watches:
    [Watch: opts.Watch && !opts.BuildOnly].) *)
Record buildAndWatch : Type := {
  Watch : bool;
  EntryPoints : list string;
  RootDir : string
}.

(** [len(result.Errors) > 0] *)
Definition hasErrors (r : BuildResult) : bool := (0 <? length (Errors r))%nat.

(** A goroutine of the errgroup returns [r]: the group keeps the first error
    that is not nil. *)
Definition group_return (r : goerror) (s : state) : state :=
  set_gerr (match gerr s with
            | None => r
            | Some first => Some first
            end) s.

Definition ctl_return (r : goerror) (s : state) : state :=
  set_pc (CReturned r) (group_return r s).

Definition side_return (r : goerror) (s : state) : state :=
  set_side (RReturned r) (group_return r s).

(** What [proc.Wait()] returns, once it returns: at once for a process that
    was never started, the exit status otherwise. *)
Definition Wait (p : procState) : option goerror :=
  match Process (cmd p) with
  | None => Some None
  | Some _ => exited p
  end.

Section Supervisor.
Variable opts : buildAndWatch.
Variable GOOS : string.

(** The state when [Run] has made the first build (line 72, with result
    [r0]) and has started its goroutines. *)
Definition init (r0 : BuildResult) : state :=
  {| now := 0; ctxDone := false; abort := false; restart := 0%nat;
     procs := []; pc := CEntry; result := r0; waitForChange := false;
     proc := 0%nat; side := if Watch opts then RIdle else XWait;
     gerr := None; oslog := [] |}.

(** Lines 130-134 and 113-117: [proc.Stop()], with [r] the answer of the
    operating system; the loop waits for [done] only when Stop returns
    nil.  [k_err] and [k_ok] are the program points that follow. *)
Definition do_stop (r : goerror) (k_err k_ok : state -> state) (s : state)
  : option state :=
  match curProc s with
  | None => None
  | Some p =>
      let '(eff, err) := Stop GOOS (fun _ => r) (cmd p) in
      let s1 := set_oslog (oslog s ++ eff)
                  (updProc (proc s) (set_stopped (Some err)) s) in
      match err with
      | Some _ => Some (k_err s1)
      | None => Some (k_ok s1)
      end
  end.

(** [waitDone()]: a receive from [done]; blocked while it is empty. *)
Definition do_waitDone (k : state -> state) (s : state) : option state :=
  match curProc s with
  | None => None
  | Some p =>
      match done p with
      | None => None
      | Some _ => Some (k (updProc (proc s) (set_done None) s))
      end
  end.

Definition step (s : state) (a : action) : option state :=
  match a with
  | Tick d =>
      if decide (0 < d) then Some (set_now (now s + d) s) else None
  | Cancel => Some (set_ctxDone true s)
  | ProcExit i st =>
      match procs s !! i with
      | Some p =>
          match Process (cmd p), exited p with
          | Some _, None => Some (updProc i (set_exited (Some st)) s)
          | _, _ => None
          end
      | None => None
      end
  | WaiterSend i =>
      match procs s !! i with
      | Some p =>
          match waiter p, Wait p, done p with
          | true, Some st, None =>
              Some (updProc i (fun q => set_waiter false (set_done (Some st) q)) s)
          | _, _, _ => None
          end
      | None => None
      end
  | CtxClose =>
      match side s with
      | XWait =>
          if ctxDone s then Some (set_side XDone (set_abort true s)) else None
      | _ => None
      end
  | CtlEnter =>
      match pc s with
      | CEntry =>
          if hasErrors (result s) && negb (Watch opts)
          then Some (ctl_return (Some build_error) s)
          else Some (set_pc CTop (set_waitForChange false s))
      | _ => None
      end
  | CtlCreate =>
      match pc s with
      | CTop =>
          let s1 := set_proc (length (procs s))
                      (set_procs (procs s ++ [newProc]) s) in
          let buildOK := negb (hasErrors (result s)) in
          let shouldStart := buildOK && negb (waitForChange s) in
          Some (set_pc (if shouldStart then CStart else CSelect) s1)
      | _ => None
      end
  | CtlStart r =>
      (* [cmd.Start] sets [cmd.Process] only when it succeeds *)
      match pc s with
      | CStart =>
          match r with
          | StartErr e =>
              if negb (Watch opts) then Some (ctl_return (Some e) s)
              else Some (set_pc CSelect (set_waitForChange true s))
          | StartOK pid =>
              Some (set_pc CSelect
                      (updProc (proc s)
                         (fun q => set_waiter true
                                     (set_cmd {| Process := Some pid |} q)) s))
          end
      | _ => None
      end
  | CtlSelAbort =>
      match pc s with
      | CSelect => if abort s then Some (set_pc CAbortStop s) else None
      | _ => None
      end
  | CtlSelRestart =>
      match pc s, restart s with
      | CSelect, S n =>
          Some (set_pc (CDrain (now s + restartQuiet)) (set_restart n s))
      | _, _ => None
      end
  | CtlSelDone =>
      match pc s, curProc s with
      | CSelect, Some p =>
          match done p with
          | Some err =>
              let s1 := updProc (proc s) (set_done None) s in
              if negb (Watch opts) then Some (ctl_return err s1)
              else Some (set_pc CTop (set_waitForChange true s1))
          | None => None
          end
      | _, _ => None
      end
  | CtlDrainRestart =>
      match pc s, restart s with
      | CDrain _, S n =>
          Some (set_pc (CDrain (now s + restartQuiet)) (set_restart n s))
      | _, _ => None
      end
  | CtlDrainDelay =>
      match pc s with
      | CDrain deadline =>
          if decide (deadline <= now s) then Some (set_pc CRestartStop s)
          else None
      | _ => None
      end
  | CtlStop r =>
      match pc s with
      | CAbortStop => do_stop r (ctl_return None) (set_pc CAbortWait) s
      | CRestartStop => do_stop r (set_pc CRebuild) (set_pc CRestartWait) s
      | _ => None
      end
  | CtlWaitDone =>
      match pc s with
      | CAbortWait => do_waitDone (ctl_return None) s
      | CRestartWait => do_waitDone (set_pc CRebuild) s
      | _ => None
      end
  | CtlRebuild r =>
      match pc s with
      | CRebuild =>
          Some (set_pc CTop (set_waitForChange false (set_result r s)))
      | _ => None
      end
  | RelayEvent =>
      match side s with
      | RIdle => Some (set_side RSending s)
      | _ => None
      end
  | RelayEventsClosed =>
      match side s with
      | RIdle => Some (side_return None s)
      | _ => None
      end
  | RelaySend =>
      match side s with
      | RSending =>
          if decide (restart s < restartCap)%nat
          then Some (set_side RIdle (set_restart (S (restart s)) s))
          else None
      | _ => None
      end
  | RelayErrors m =>
      match side s with
      | RIdle =>
          let '(err, ok) := recv_error m in
          if negb ok then Some (side_return err (set_abort true s))
          else Some s
      | _ => None
      end
  | RelayCtxDone =>
      match side s with
      | RIdle =>
          if ctxDone s then Some (side_return None (set_abort true s))
          else None
      | _ => None
      end
  end.

(** Running a schedule; [None] when one of its actions cannot happen. *)
Fixpoint exec (s : state) (tr : list action) : option state :=
  match tr with
  | [] => Some s
  | a :: tr' =>
      match step s a with
      | Some s' => exec s' tr'
      | None => None
      end
  end.

(** [g.Wait()], line 178: what [Run] returns, once every goroutine of the
    group has returned (the context watcher of line 172 is not in it). *)
Definition Run_result (s : state) : option goerror :=
  match pc s with
  | CReturned _ =>
      if Watch opts then
        match side s with
        | RReturned _ => Some (gerr s)
        | _ => None
        end
      else Some (gerr s)
  | _ => None
  end.
End Supervisor.


(** ** Before the goroutines: lines 34-72 of [Run] *)

(** [err.Error()] *)
Definition Error (e : error) : string :=
  match e with
  | Errno msg => msg
  | ExitError code => "exit status " ++ pretty code
  | Errorf msg => msg
  | Wrapf msg _ => msg
  end.

(** The calls [Run] makes to its collaborators before it starts its
    goroutines, in program order. *)
Inductive extcall : Type :=
| XNewWatcher                 (* fsnotify.NewWatcher() *)
| XAdd (path : string)        (* watcher.Add(path) *)
| XBuild.                     (* api.Build(esbuildOpts) *)

(** How the first part of [Run] ends. *)
Inductive setup : Type :=
| Fatal (e : error)           (* log.Fatal(err), line 39 *)
| Return (e : error)          (* Run returns at line 67 *)
| Running (s : state).        (* the goroutines of lines 79 and 152/172 run *)

Section Setup.
(** [filepath.IsAbs], [filepath.Join] and the rendering of [%q]. *)
Variable IsAbs : string -> bool.
Variable Join : string -> string -> string.
Variable Quote : string -> string.
(** The answers of [fsnotify.NewWatcher()], of [watcher.Add] and of
    [api.Build]. *)
Variable NewWatcher : goerror.
Variable Add : string -> goerror.
Variable Build : BuildResult.

Variable opts : buildAndWatch.

(** Lines 63-65. *)
Definition absEntrypoint (entrypoint : string) : string :=
  if negb (IsAbs entrypoint) then Join (RootDir opts) entrypoint
  else entrypoint.

(** [fmt.Errorf("watching %q: %w", entrypoint, err)] *)
Definition watching_error (entrypoint : string) (err : error) : error :=
  Wrapf ("watching " ++ Quote entrypoint ++ ": " ++ Error err) err.

(** The loop of lines 62-69. *)
Fixpoint watchEntryPoints (eps : list string) : list extcall * goerror :=
  match eps with
  | [] => ([], None)
  | entrypoint :: rest =>
      let entrypoint := absEntrypoint entrypoint in
      match Add entrypoint with
      | Some err => ([XAdd entrypoint], Some (watching_error entrypoint err))
      | None =>
          let '(calls, r) := watchEntryPoints rest in
          (XAdd entrypoint :: calls, r)
      end
  end.

Definition Run_setup : list extcall * setup :=
  if Watch opts then
    match NewWatcher with
    | Some err => ([XNewWatcher], Fatal err)
    | None =>
        let '(calls, r) := watchEntryPoints (EntryPoints opts) in
        match r with
        | Some err => (XNewWatcher :: calls, Return err)
        | None => (XNewWatcher :: calls ++ [XBuild], Running (init opts Build))
        end
    end
  else ([XBuild], Running (init opts Build)).
End Setup.

(** ** Vocabulary of the statements *)

(** The actions of the control loop, and among them those of the teardown
    (lines 113-118). *)
Definition ctl_action (a : action) : bool :=
  match a with
  | CtlEnter | CtlCreate | CtlStart _ | CtlSelAbort | CtlSelRestart
  | CtlSelDone | CtlDrainRestart | CtlDrainDelay | CtlStop _ | CtlWaitDone
  | CtlRebuild _ => true
  | _ => false
  end.

Definition teardown_action (a : action) : bool :=
  match a with
  | CtlStop _ | CtlWaitDone => true
  | _ => false
  end.

(** The actions of the relay. *)
Definition relay_action (a : action) : bool :=
  match a with
  | RelayEvent | RelayEventsClosed | RelaySend | RelayErrors _
  | RelayCtxDone => true
  | _ => false
  end.

Definition is_start (a : action) : bool :=
  match a with CtlStart (StartOK _) => true | _ => false end.
Definition is_stop (a : action) : bool :=
  match a with CtlStop _ => true | _ => false end.
Definition is_rebuild (a : action) : bool :=
  match a with CtlRebuild _ => true | _ => false end.
Definition is_event (a : action) : bool :=
  match a with RelayEvent => true | _ => false end.

(** How often a schedule does something. *)
Definition count (f : action -> bool) (tr : list action) : nat :=
  length (filter (fun a => f a = true) tr).

(** A process value whose child was started. *)
Definition started (p : procState) : Prop := Process (cmd p) <> None.

(** The loop has received the exit status of the child from [done]. *)
Definition exit_observed (p : procState) : Prop :=
  exited p <> None /\ done p = None /\ waiter p = false.

(** ** Invariants *)

(** A process value nothing has happened to, but perhaps a call of Stop. *)
Definition never_started (p : procState) : Prop :=
  Process (cmd p) = None /\ waiter p = false /\ done p = None /\
  exited p = None.

(** Watch mode after a first build that failed: the build result still has
    errors, no process value was ever started, and the loop is in its first
    iteration or in the handling of a signal. *)
Definition failed_build_inv (s : state) : Prop :=
  hasErrors (result s) = true /\
  Forall never_started (procs s) /\
  match pc s with
  | CEntry | CTop => True
  | CSelect | CDrain _ | CRestartStop | CRestartWait | CAbortStop
  | CAbortWait => True
  | CStart | CRebuild | CReturned _ => False
  end.

(** Watch mode: no goroutine of the group has returned an error. *)
Definition nil_results_inv (s : state) : Prop :=
  gerr s = None /\
  (forall r, pc s = CReturned r -> r = None) /\
  (forall r, side s = RReturned r -> r = None).

(** The loop has taken the abort case of its select. *)
Definition tearing_down (s : state) : Prop :=
  match pc s with
  | CAbortStop | CAbortWait | CReturned _ => True
  | _ => False
  end.

(** ** Sample inputs *)

Definition watchMode : buildAndWatch :=
  {| Watch := true; EntryPoints := ["main.ts"%string]; RootDir := "/repo" |}.
Definition oneShot : buildAndWatch :=
  {| Watch := false; EntryPoints := ["main.ts"%string]; RootDir := "/repo" |}.
Definition okResult : BuildResult := {| Errors := [] |}.
Definition failedResult : BuildResult :=
  {| Errors := ["main.ts:1:1: unexpected token"%string] |}.

(** One-shot mode, as long as the abort case is not taken: there is at most
    one process value, and a returned loop has returned the build error, the
    error of Start, or what the child exited with. *)
Definition chan_ok (p : procState) : Prop :=
  (forall e, done p = Some e -> exited p = Some e) /\
  (waiter p = true -> started p).

Definition oneshot_inv (s : state) : Prop :=
  restart s = 0%nat /\
  (side s = XWait \/ side s = XDone) /\
  Forall chan_ok (procs s) /\
  match pc s with
  | CEntry => procs s = [] /\ gerr s = None
  | CTop =>
      procs s = [] /\ gerr s = None /\ hasErrors (result s) = false /\
      waitForChange s = false
  | CStart => procs s = [newProc] /\ proc s = 0%nat /\ gerr s = None
  | CSelect =>
      (exists p, procs s = [p] /\ started p) /\ proc s = 0%nat /\
      gerr s = None
  | CReturned r =>
      gerr s = r /\
      (procs s = [] /\ r = Some build_error /\ hasErrors (result s) = true \/
       procs s = [newProc] /\ r <> None \/
       exists p, procs s = [p] /\ started p /\ exited p = Some r)
  | _ => False
  end.

(** The build has failed in one-shot mode: nothing but the entry of the loop
    ever happens in it. *)
Definition build_failed_inv (s : state) : Prop :=
  procs s = [] /\
  (pc s = CEntry /\ hasErrors (result s) = true /\ gerr s = None \/
   pc s = CReturned (Some build_error) /\ gerr s = Some build_error).

(** *** Processes are started in turn *)

(** Stop was called on the process, and when it returned nil the loop went on
    to receive the exit status from [done]. *)
Definition confirmed_stopped (p : procState) : Prop :=
  exists r, stopped p = Some r /\ (r = None -> exit_observed p).

(** The goroutine of line 106 exists only for a started process and sends
    once, after the exit of the child. *)
Definition proc_wf (p : procState) : Prop :=
  (waiter p = true -> started p /\ done p = None) /\
  (forall e, done p = Some e ->
     started p /\ exited p <> None /\ waiter p = false).

Definition all_confirmed (l : list procState) : Prop :=
  forall i p, l !! i = Some p -> started p -> confirmed_stopped p.

Definition started_in_turn (l : list procState) : Prop :=
  forall i j p q, (i < j)%nat -> l !! i = Some p -> l !! j = Some q ->
    started p -> started q -> confirmed_stopped p.

(** The loop's [proc] is the process value made last. *)
Definition cur_last (s : state) : Prop := S (proc s) = length (procs s).

Definition restart_inv (s : state) : Prop :=
  Forall proc_wf (procs s) /\
  started_in_turn (procs s) /\
  match pc s with
  | CEntry => procs s = []
  | CTop => waitForChange s = false -> all_confirmed (procs s)
  | CStart =>
      cur_last s /\ all_confirmed (procs s) /\
      exists p, curProc s = Some p /\ never_started p
  | CRebuild => all_confirmed (procs s)
  | CRestartWait =>
      cur_last s /\ exists p, curProc s = Some p /\ stopped p = Some None
  | CSelect | CDrain _ | CRestartStop | CAbortStop | CAbortWait => cur_last s
  | CReturned _ => True
  end.

(** ** Bursts of restart signals, with time *)

(** The loop receives from [restart]: in its select (line 119) or in the
    drain select (line 125). *)
Definition is_receive (a : action) : bool :=
  match a with
  | CtlSelRestart | CtlDrainRestart => true
  | _ => false
  end.

Section Times.
Variable opts : buildAndWatch.
Variable GOOS : string.

(** The times at which the actions selected by [f] happen in a schedule. *)
Fixpoint times (f : action -> bool) (s : state) (tr : list action) : list Z :=
  match tr with
  | [] => []
  | a :: tr' =>
      match step opts GOOS s a with
      | None => []
      | Some s' => (if f a then [now s] else []) ++ times f s' tr'
      end
  end.
End Times.

(** Every time of the list but the first is less than [restartQuiet] after
    the one before it. *)
Fixpoint within_quiet (ts : list Z) : Prop :=
  match ts with
  | t1 :: ((t2 :: _) as rest) => t2 < t1 + restartQuiet /\ within_quiet rest
  | _ => True
  end.

(** Where the loop is in the handling of a burst that it entered from its
    select: [last] is the time of the last receive from [restart], if any,
    and [nstop], [nreb] and [nstart] count the calls of Stop, Rebuild and
    Start made on the way. *)
Definition cycle_inv (last : option Z) (s : state) (nstop nreb nstart : nat)
  : Prop :=
  match last with
  | None =>
      nreb = 0%nat /\ nstart = 0%nat /\
      match pc s with
      | CSelect => nstop = 0%nat
      | CTop => waitForChange s = true /\ nstop = 0%nat
      | CAbortStop | CAbortWait | CReturned _ => True
      | _ => False
      end
  | Some t =>
      match pc s with
      | CDrain deadline =>
          deadline = t + restartQuiet /\
          nstop = 0%nat /\ nreb = 0%nat /\ nstart = 0%nat
      | CRestartStop =>
          t + restartQuiet <= now s /\
          nstop = 0%nat /\ nreb = 0%nat /\ nstart = 0%nat
      | CRestartWait | CRebuild =>
          t + restartQuiet <= now s /\
          nstop = 1%nat /\ nreb = 0%nat /\ nstart = 0%nat
      | CTop =>
          t + restartQuiet <= now s /\ nstop = 1%nat /\ nreb = 1%nat /\
          nstart = (if waitForChange s
                    then if hasErrors (result s) then 0 else 1
                    else 0)%nat
      | CStart =>
          t + restartQuiet <= now s /\ nstop = 1%nat /\ nreb = 1%nat /\
          nstart = 0%nat /\ hasErrors (result s) = false
      | CSelect =>
          t + restartQuiet <= now s /\ nstop = 1%nat /\ nreb = 1%nat /\
          nstart = (if hasErrors (result s) then 0 else 1)%nat
      | CAbortStop | CAbortWait | CReturned _ =>
          t + restartQuiet <= now s /\ nreb = 1%nat /\ (nstart <= 1)%nat
      | CEntry => False
      end
  end.

(** The schedule of a burst that is handled at once: the first notification,
    then one after each of [gaps], the time-out of the drain loop, and one
    cycle of stop, wait, rebuild and start. *)
Definition burst_events (gaps : list Z) : list action :=
  [RelayEvent; RelaySend; CtlSelRestart] ++
  flat_map (fun g => [Tick g; RelayEvent; RelaySend; CtlDrainRestart]) gaps.

Definition restart_cycle (i : nat) (st : goerror) (r : BuildResult) (pid : Z)
  : list action :=
  [Tick restartQuiet; CtlDrainDelay; CtlStop None; ProcExit i st;
   WaiterSend i; CtlWaitDone; CtlRebuild r; CtlCreate; CtlStart (StartOK pid)].

(** A supervisor in watch mode whose process [pid] runs, at time [t], with
    the loop in its select and the relay in its own. *)
Definition running (pid : Z) (t : Z) (r : BuildResult) : state :=
  {| now := t; ctxDone := false; abort := false; restart := 0%nat;
     procs := [{| cmd := {| Process := Some pid |}; exited := None;
                  waiter := true; done := None; stopped := None |}];
     pc := CSelect; result := r; waitForChange := false; proc := 0%nat;
     side := RIdle; gerr := None; oslog := [] |}.

(** The same supervisor when the loop has just received a restart signal at
    time [t] and waits in its drain select. *)
Definition draining (pid : Z) (t : Z) (r : BuildResult) : state :=
  {| now := t; ctxDone := false; abort := false; restart := 0%nat;
     procs := [{| cmd := {| Process := Some pid |}; exited := None;
                  waiter := true; done := None; stopped := None |}];
     pc := CDrain (t + restartQuiet); result := r; waitForChange := false;
     proc := 0%nat; side := RIdle; gerr := None; oslog := [] |}.

Definition sum_gaps (gaps : list Z) : Z := foldr Z.add 0 gaps.

(** ** Abort with a restart signal in flight *)

(** A notification is relayed while the loop is on its way to line 99; then
    the context is cancelled and the relay closes abort. *)
Definition abort_with_restart_queued : list action :=
  [CtlEnter; CtlCreate; RelayEvent; RelaySend; Cancel; RelayCtxDone].

(** The start under way, then the restart case of the select and a whole
    restart cycle. *)
Definition start_and_restart_cycle (pid : Z) (st : goerror) (r : BuildResult)
  (pid' : Z) : list action :=
  [CtlStart (StartOK pid); CtlSelRestart; Tick restartQuiet; CtlDrainDelay;
   CtlStop None; ProcExit 0 st; WaiterSend 0; CtlWaitDone; CtlRebuild r;
   CtlCreate; CtlStart (StartOK pid')].

(** ** More about the supervisor *)

(** The actions that execute [close(abort)] (lines 162, 166 and 174). *)
Definition closes_abort (a : action) : bool :=
  match a with
  | CtxClose | RelayErrors Closed | RelayCtxDone => true
  | _ => false
  end.

(** A goroutine that closes abort does nothing after it. *)
Definition abort_once_inv (s : state) : Prop :=
  abort s = true ->
  match side s with
  | RReturned _ | XDone => True
  | _ => False
  end.

(** A call of [proc.Start()], whatever it answers. *)
Definition is_start_call (a : action) : bool :=
  match a with CtlStart _ => true | _ => false end.

Definition is_create (a : action) : bool :=
  match a with CtlCreate => true | _ => false end.

(** The loop is on its way to line 99 with [shouldStart] still possible:
    one call of Start may come before the next rebuild. *)
Definition armed (s : state) : nat :=
  match pc s with
  | CEntry | CStart => 1
  | CTop => if waitForChange s then 0 else 1
  | _ => 0
  end.

(** The notifications that have reached the relay and have not yet led to a
    rebuild: the one the relay holds, those queued in [restart], and the one
    the loop is handling. *)
Definition in_flight (s : state) : nat :=
  (restart s +
   match side s with RSending => 1 | _ => 0 end +
   match pc s with
   | CDrain _ | CRestartStop | CRestartWait | CRebuild => 1
   | _ => 0
   end)%nat.

(** One-shot mode: the shape of every state. *)
Definition oneshot_shape (s : state) : Prop :=
  restart s = 0%nat /\
  (side s = XWait \/ side s = XDone) /\
  match pc s with
  | CEntry | CTop => procs s = []
  | CStart | CSelect | CAbortStop | CAbortWait => length (procs s) = 1%nat
  | CReturned _ => (length (procs s) <= 1)%nat
  | CDrain _ | CRestartStop | CRestartWait | CRebuild => False
  end.

(** The loop waits for a change with a process value that was never started:
    lines 86-147 with [waitForChange] set, or after a failed build. *)
Definition idle_waiting (s : state) : Prop :=
  match pc s with
  | CTop => waitForChange s = true
  | CSelect | CDrain _ | CRestartStop | CRestartWait | CAbortStop
  | CAbortWait => exists p, curProc s = Some p /\ never_started p
  | CEntry | CStart | CRebuild | CReturned _ => False
  end.

(** In watch mode the loop only leaves through the abort case. *)
Definition watch_exit_inv (s : state) : Prop :=
  (tearing_down s -> abort s = true) /\ nil_results_inv s.

(** The build result the loop holds allows a start. *)
Definition start_guard_inv (s : state) : Prop :=
  pc s = CStart -> hasErrors (result s) = false /\ waitForChange s = false.

(** ** Packaging: [Build] (the package command) *)

(** [Build] makes the distributable form of one package of the repository: a
    bundle [index.cjs.js] and a [package.json] that lists, of the
    dependencies the repository declares, those the package's own code
    imports.  The types [Repository], [Package] and [PackageMetadata] are
    given with the fields [Build] uses; the file system, [EnsureTmp],
    [WritePackageJSON] and the bundler are the outside world.  The bundler
    calls the plugin's [OnResolve] hook for every import it resolves; the hook
    always answers with the empty result, so what the bundler does is not
    influenced by it, and the model takes the bundler's answer to be the list
    of the hook's calls together with the build result. *)
Module Packaging.

Record Package : Type := {
  Name : string;
  Description : string;
  Entrypoint : string
}.

Record Repository : Type := {
  Packages : gmap string Package;
  Dependencies : gmap string string;
  OutDir : string;
  RootDir : string
}.

Module PackageMetadata.
Record t : Type := {
  Name : string;
  Description : string;
  Main : string;
  Dependencies : gmap string string
}.
End PackageMetadata.

(** [api.OnResolveArgs], the two fields the plugin reads. *)
Record OnResolveArgs : Type := {
  Importer : string;
  Path : string
}.

(** [api.BuildOptions], the fields that vary. *)
Record BuildOptions : Type := {
  EntryPoints : list string;
  Outfile : string
}.

(** What [Build] asks of the outside world, in order. *)
Inductive call : Type :=
| MkdirAll (path : string)
| EnsureTmp
| ApiBuild (options : BuildOptions)
| WritePackageJSON (metadata : PackageMetadata.t) (dir : string).

Definition depPrefix : string :=
  "/Users/brandonbloom/Projects/unirepo/example/node_modules/".

(** [strings.HasPrefix(filepath, depPrefix)] *)
Definition isFileFromDeps (filepath : string) : bool :=
  String.prefix depPrefix filepath.

(** The body of the [OnResolve] hook, as a function on the map
    [dependencies] it updates. *)
Definition onResolve (repo : Repository) (dependencies : gmap string string)
    (args : OnResolveArgs) : gmap string string :=
  if isFileFromDeps (Importer args) then dependencies
  else
    let moduleName := Path args in
    match Dependencies repo !! moduleName with
    | Some version => <[moduleName := version]> dependencies
    | None => dependencies
    end.

Definition mainRelpath : string := "index.cjs.js".

Section Build.
(** [path.Join] and the [%q] verb. *)
Variable Join : list string -> string.
Variable Quote : string -> string.
(** The answers of the outside world. *)
Variable osMkdirAll : string -> goerror.
Variable ensureTmp : goerror.
Variable apiBuild : BuildOptions -> list OnResolveArgs * BuildResult.
Variable writePackageJSON : PackageMetadata.t -> string -> goerror.

Definition packageDir (repo : Repository) (pkg : Package) : string :=
  Join [OutDir repo; "node_modules"%string; Name pkg].

Definition buildOptions (repo : Repository) (pkg : Package) : BuildOptions :=
  {| EntryPoints := [Entrypoint pkg];
     Outfile := Join [packageDir repo pkg; mainRelpath] |}.

Definition pkgMetadata (pkg : Package) (dependencies : gmap string string)
    : PackageMetadata.t :=
  {| PackageMetadata.Name := Name pkg;
     PackageMetadata.Description := Description pkg;
     PackageMetadata.Main := mainRelpath;
     PackageMetadata.Dependencies := dependencies |}.

(** [Build]: the calls made and the error returned. *)
Definition Build (repo : Repository) (packageName : string)
    : list call * goerror :=
  match Packages repo !! packageName with
  | None =>
      ([], Some (Errorf ("no such package: " ++ Quote packageName)))
  | Some pkg =>
      let dir := packageDir repo pkg in
      match osMkdirAll dir with
      | Some err => ([MkdirAll dir], Some err)
      | None =>
          match ensureTmp with
          | Some err => ([MkdirAll dir; EnsureTmp], Some err)
          | None =>
              let options := buildOptions repo pkg in
              let '(resolved, result) := apiBuild options in
              let dependencies := foldl (onResolve repo) ∅ resolved in
              let metadata := pkgMetadata pkg dependencies in
              let calls :=
                [MkdirAll dir; EnsureTmp; ApiBuild options;
                 WritePackageJSON metadata dir] in
              match writePackageJSON metadata dir with
              | Some err => (calls, Some err)
              | None =>
                  if hasErrors result then (calls, Some build_error)
                  else (calls, None)
              end
          end
      end
  end.
End Build.

End Packaging.

(** ** The run command: [Run] ([internal/run.go]) *)

(** [Run] prepares a temporary directory with the script that loads the
    bundle, and hands over to the supervisor.  The file system, [EnsureTmp],
    [TempDir] and the supervisor itself ([buildAndWatch.Run], modelled above)
    are the outside world here: the model records the calls [Run] makes, in
    order, the deferred [os.RemoveAll] at the place where it runs. *)
Module Runner.



(** What [CreateProcess] returns: the [funcProcess] whose [start] prints the
    directory, or the [cmdProcess] of [exec.Command(name, args...)] with
    [Setpgid] as given. *)
Inductive process : Type :=
| funcProcess (prints : string)
| cmdProcess (name : string) (args : list string) (Setpgid : bool).

(** The value [Run] builds to call the supervisor: [Watch], and of the
    options of the bundler the working directory, the entry points and the
    output file. *)
Record supervisor : Type := {
  options : buildAndWatch;
  Outfile : string;
  CreateProcess : process
}.

Inductive call : Type :=
| EnsureTmp
| TempDir (prefix : string)
| WriteFile (filename data : string) (perm : Z)
| Supervise (sup : supervisor)
| RemoveAll (path : string).




Section Run.
(** [path.Join] *)
Variable Join : list string -> string.
(** The answers of the outside world. *)
Variable ensureTmp : goerror.
Variable tempDir : string -> string * goerror.
Variable writeFile : string -> string -> Z -> goerror.
Variable supervise : supervisor -> goerror.





End Run.

End Runner.

(** Sample inputs for the two commands. *)
Definition samplePackage : Packaging.Package :=
  {| Packaging.Name := "app"; Packaging.Description := "the application";
     Packaging.Entrypoint := "app/index.ts" |}.

Definition sampleRepository : Packaging.Repository :=
  {| Packaging.Packages := {[ "app"%string := samplePackage ]};
     Packaging.Dependencies :=
       <[ "lodash"%string := "4.17.21"%string ]>
         {[ "react"%string := "18.2.0"%string ]};
     Packaging.OutDir := "/repo/out";
     Packaging.RootDir := "/repo" |}.

Definition slashJoin (elem : list string) : string := String.concat "/" elem.

(** The application imports lodash and a file of its own; lodash, installed
    under the dependencies directory, imports react. *)
Definition sampleResolved : list Packaging.OnResolveArgs :=
  [ {| Packaging.Importer := "/repo/app/index.ts"; Packaging.Path := "lodash" |};
    {| Packaging.Importer := "/repo/app/index.ts"; Packaging.Path := "./util" |};
    {| Packaging.Importer :=
         Packaging.depPrefix ++ "lodash/index.js";
       Packaging.Path := "react" |} ].


(** ** Tactics *)

(** Taking a step apart: every way [step] can answer [Some]. *)
Ltac step_inv H :=
  unfold step, do_stop, do_waitDone, Stop in H;
  repeat (case_match; simplify_eq; try done).

(** Lists of at most one process value. *)
Ltac one_proc :=
  repeat match goal with
  | H : [] !! _ = Some _ |- _ => by rewrite lookup_nil in H
  | H : [_] !! ?i = Some _ |- _ =>
      is_var i; destruct i as [|?]; simpl in H; [|done]; simplify_eq
  | H : [_] !! 0%nat = Some _ |- _ => simpl in H; simplify_eq
  | H : Forall _ [_] |- _ => apply Forall_inv in H
  | H : Forall _ [] |- _ => clear H
  | H : chan_ok _ |- _ => destruct H as [? ?]
  | |- Forall _ [_] => apply Forall_cons; split; [|constructor]
  | |- Forall _ [] => constructor
  end.

(** The end of a case of the one-shot invariant. *)
Ltac oneshot_fin :=
  try rewrite andb_true_r in *;
  unfold chan_ok, started, curProc in *; simpl in *;
  simplify_eq;
  try match goal with
      | |- Forall _ [_] => apply Forall_cons; split; [|constructor]; simpl
      end;
  first
    [ done
    | congruence
    | by split_and!; auto; try congruence
    | left; by split_and!
    | right; left; by split_and!
    | right; right; eexists; by split_and!
    | eexists; by split_and!
    | idtac ].


(** * Properties *)

(** ** Schedules *)

Lemma exec_app opts GOOS (tr1 tr2 : list action) (s : state) :
  exec opts GOOS s (tr1 ++ tr2) =
  exec opts GOOS s tr1 ≫= fun s1 => exec opts GOOS s1 tr2.
Proof.
  revert s. induction tr1 as [|a tr1 IH]; intros s; simpl; [done|].
  destruct (step opts GOOS s a); simpl; auto.
Qed.

Lemma exec_cons opts GOOS (a : action) (tr : list action) (s : state) :
  exec opts GOOS s (a :: tr) =
  step opts GOOS s a ≫= fun s1 => exec opts GOOS s1 tr.
Proof. simpl. by destruct (step opts GOOS s a). Qed.

(** A property of states kept by every step holds along every schedule, and
    so does what it implies about the actions taken. *)
Lemma exec_invariant opts GOOS (P : state -> Prop) (Q : action -> Prop) :
  (forall s a s', P s -> step opts GOOS s a = Some s' -> Q a /\ P s') ->
  forall tr s s', P s -> exec opts GOOS s tr = Some s' -> Forall Q tr /\ P s'.
Proof.
  intros Hstep. induction tr as [|a tr IH]; intros s s' HP Hex; simpl in Hex.
  - simplify_eq. auto.
  - destruct (step opts GOOS s a) as [s1|] eqn:Hs; [|done].
    destruct (Hstep _ _ _ HP Hs) as [Hq HP1].
    destruct (IH _ _ HP1 Hex). auto.
Qed.

Lemma exec_invariant_state opts GOOS (P : state -> Prop) :
  (forall s a s', P s -> step opts GOOS s a = Some s' -> P s') ->
  forall tr s s', P s -> exec opts GOOS s tr = Some s' -> P s'.
Proof.
  intros Hstep tr s s' HP Hex.
  apply (exec_invariant opts GOOS P (fun _ => True)) in Hex; [tauto| |done].
  intros. split; eauto.
Qed.

Lemma count_cons (f : action -> bool) (a : action) (tr : list action) :
  count f (a :: tr) = ((if f a then 1 else 0) + count f tr)%nat.
Proof.
  unfold count. rewrite filter_cons.
  destruct (f a); case_decide; simpl; congruence.
Qed.

Lemma count_zero (f : action -> bool) (tr : list action) :
  Forall (fun a => f a = false) tr -> count f tr = 0%nat.
Proof.
  induction 1 as [|a tr Ha _ IH]; [done|]. rewrite count_cons, Ha, IH. done.
Qed.

(** A count that goes with a potential of the state. *)
Lemma exec_potential opts GOOS (f g : action -> bool) (pot : state -> nat)
  (P : state -> Prop) :
  (forall s a s', P s -> step opts GOOS s a = Some s' ->
     P s' /\
     ((if f a then 1 else 0) + pot s' <= (if g a then 1 else 0) + pot s)%nat) ->
  forall tr s s', P s -> exec opts GOOS s tr = Some s' ->
    P s' /\ (count f tr + pot s' <= count g tr + pot s)%nat.
Proof.
  intros Hstep. induction tr as [|a tr IH]; intros s s' HP Hex.
  - simpl in Hex. simplify_eq. unfold count; simpl. split; [done|lia].
  - rewrite exec_cons in Hex.
    destruct (step opts GOOS s a) as [s1|] eqn:Hs; [|done].
    cbn [mbind option_bind] in Hex.
    destruct (Hstep _ _ _ HP Hs) as [HP1 Hle].
    destruct (IH _ _ HP1 Hex) as [HP' IHle].
    split; [done|]. rewrite !count_cons. lia.
Qed.


(** ** [cmdProcess.Stop] *)

(** C6: Stop on a process that was never started does nothing and returns
    nil.  On a started process it sends SIGTERM to the process group (the
    negated pid) and returns the result of that call; before it, it leaves a
    goroutine behind that sleeps for [maxProcStopWait], five seconds, and then
    sends SIGKILL to the same group; Stop itself never sleeps.  On Windows it
    only kills the single process, at once. *)
Theorem C6_Stop_graceful_then_forced
  (GOOS : string) (os : syscall -> goerror) (pid : Z) :
  Stop GOOS os {| Process := None |} = ([], None) /\
  (if isWindows GOOS then
     Stop GOOS os {| Process := Some pid |} =
       ([Call (ProcessKill pid)], os (ProcessKill pid))
   else
     Stop GOOS os {| Process := Some pid |} =
       ([Go [Sleep 5000000000; Call (SysKill (- pid) SIGKILL)];
         Call (SysKill (- pid) SIGTERM)],
        os (SysKill (- pid) SIGTERM))) /\
  blocked_for (Stop GOOS os {| Process := Some pid |}).1 = 0 /\
  maxProcStopWait = 5 * Second.
Proof.
  unfold Stop; simpl. destruct (isWindows GOOS); simpl; auto.
Qed.

(** ** The entry points are watched before the first build *)

Section SetupFacts.
Variable IsAbs : string -> bool.
Variable Join : string -> string -> string.
Variable Quote : string -> string.
Variable Add : string -> goerror.
Variable opts : buildAndWatch.

Lemma watchEntryPoints_fails (pre post : list string) (ep : string) (err : error) :
  Forall (fun p => Add (absEntrypoint IsAbs Join opts p) = None) pre ->
  Add (absEntrypoint IsAbs Join opts ep) = Some err ->
  watchEntryPoints IsAbs Join Quote Add opts (pre ++ ep :: post) =
  (XAdd <$> (absEntrypoint IsAbs Join opts <$> (pre ++ [ep])),
   Some (watching_error Quote (absEntrypoint IsAbs Join opts ep) err)).
Proof.
  intros Hpre Hep. induction Hpre as [|p pre Hp _ IH]; simpl.
  - rewrite Hep. done.
  - rewrite Hp, IH. done.
Qed.
End SetupFacts.

(** C10: in watch mode, when [watcher.Add] fails with [err] on an entry point
    (the ones before it having been added), [Run] returns an error that wraps
    [err]; it has called [watcher.Add] for the entry points up to that one and
    nothing else: [api.Build] is not called and no goroutine, hence no
    process, exists. *)
Theorem C10_entrypoint_watch_failure_returns_first
  (IsAbs : string -> bool) (Join : string -> string -> string)
  (Quote : string -> string) (Add : string -> goerror) (Build : BuildResult)
  (opts : buildAndWatch) (pre post : list string) (ep : string) (err : error) :
  Watch opts = true ->
  EntryPoints opts = pre ++ ep :: post ->
  Forall (fun p => Add (absEntrypoint IsAbs Join opts p) = None) pre ->
  Add (absEntrypoint IsAbs Join opts ep) = Some err ->
  let r := Run_setup IsAbs Join Quote None Add Build opts in
  r.2 = Return (watching_error Quote (absEntrypoint IsAbs Join opts ep) err) /\
  Unwrap (watching_error Quote (absEntrypoint IsAbs Join opts ep) err) = Some err /\
  r.1 = XNewWatcher :: (XAdd <$> (absEntrypoint IsAbs Join opts <$> (pre ++ [ep]))) /\
  ~ In XBuild r.1 /\
  (forall s, r.2 <> Running s).
Proof.
  intros Hw Heps Hpre Hep. unfold Run_setup. rewrite Hw, Heps.
  rewrite (watchEntryPoints_fails _ _ _ _ _ _ _ _ _ Hpre Hep). simpl.
  repeat split; try done.
  intros [Hx|Hx]; [done|].
  apply in_map_iff in Hx as (? & ? & _). done.
Qed.

Lemma C10_witness :
  let IsAbs := String.prefix "/" in
  let Join := fun a b => (a ++ "/" ++ b)%string in
  let Add := fun p => if String.eqb p "/repo/b.ts" then Some (Errno "no such file or directory") else None in
  let opts := {| Watch := true; EntryPoints := ["a.ts"; "b.ts"; "c.ts"]%string;
                 RootDir := "/repo" |} in
  (Run_setup IsAbs Join id None Add {| Errors := [] |} opts).1 =
    [XNewWatcher; XAdd "/repo/a.ts"; XAdd "/repo/b.ts"].
Proof.
  intros IsAbs Join Add opts.
  pose proof (C10_entrypoint_watch_failure_returns_first IsAbs Join id Add
                {| Errors := [] |} opts ["a.ts"%string] ["c.ts"%string] "b.ts"
                (Errno "no such file or directory")) as H.
  destruct H as (_ & _ & H & _).
  - reflexivity.
  - reflexivity.
  - repeat constructor.
  - reflexivity.
  - exact H.
Defined.

(** ** Watch mode after a failed first build *)

Lemma curProc_elem (s : state) (p : procState) :
  curProc s = Some p -> p ∈ procs s.
Proof. unfold curProc. apply list_elem_of_lookup_2. Qed.

Lemma never_started_alter (f : procState -> procState) (i : nat)
  (l : list procState) :
  (forall p, never_started p -> never_started (f p)) ->
  Forall never_started l -> Forall never_started (alter f i l).
Proof.
  intros Hf Hl. apply Forall_forall. intros q Hq.
  apply list_elem_of_lookup in Hq as [j Hj].
  destruct (decide (i = j)) as [->|Hne].
  - rewrite list_lookup_alter_eq in Hj.
    destruct (l !! j) as [p|] eqn:Hp; simplify_eq/=.
    apply Hf. eapply Forall_lookup_1; eauto.
  - rewrite list_lookup_alter_ne in Hj by done.
    eapply Forall_lookup_1; eauto.
Qed.

Lemma never_started_cur (s : state) (p : procState) :
  Forall never_started (procs s) -> curProc s = Some p -> never_started p.
Proof.
  intros Hns Hp. eapply Forall_forall; [exact Hns|]. by apply curProc_elem.
Qed.

Lemma failed_build_inv_step opts GOOS (s s' : state) (a : action) :
  Watch opts = true ->
  failed_build_inv s -> step opts GOOS s a = Some s' ->
  is_rebuild a = false /\ is_start a = false /\ failed_build_inv s'.
Proof.
  intros Hw (Herr & Hns & Hpc) Hs.
  step_inv Hs; simpl;
    repeat match goal with
    | H : curProc _ = Some _ |- _ =>
        apply (never_started_cur _ _ Hns) in H; destruct H as (?&?&?&?)
    | H : procs _ !! _ = Some _ |- _ =>
        apply (Forall_lookup_1 _ _ _ _ Hns) in H; destruct H as (?&?&?&?)
    end;
    try congruence;
    unfold failed_build_inv; simpl;
    try (rewrite Hw in *; simpl in *; try rewrite andb_false_r in *; try done);
    try (rewrite Herr in *; simpl in *; try done);
    try (split_and!; try done;
         first [ apply never_started_alter; [|done];
                 intros ? (?&?&?&?); by repeat split
               | apply Forall_app; split; [done|]; by repeat constructor ]).

Qed.

Lemma failed_build_inv_init opts (r0 : BuildResult) :
  hasErrors r0 = true -> failed_build_inv (init opts r0).
Proof. intros H. repeat split; simpl; auto. Qed.

Lemma failed_build_inv_blocked opts GOOS (s : state) (a : action) :
  failed_build_inv s -> pc s = CRestartWait \/ pc s = CAbortWait ->
  ctl_action a = true -> step opts GOOS s a = None.
Proof.
  intros (_ & Hns & _) Hpc Ha.
  destruct (step opts GOOS s a) as [s'|] eqn:Hs; [|done].
  exfalso. destruct Hpc as [Hpc|Hpc]; step_inv Hs;
    match goal with
    | H : curProc _ = Some _ |- _ =>
        apply (never_started_cur _ _ Hns) in H; destruct H as (?&?&?&?)
    end; congruence.
Qed.

(** C3: in watch mode, when the first build has failed, the loop never
    rebuilds and never starts a process, whatever arrives: a restart signal
    takes it to Stop, which returns nil for the process that was never
    started, and then into [waitDone], where every action of the loop is
    blocked, for nothing is ever sent on [done]. *)
Theorem C3_failed_build_restart_blocks_in_waitDone
  (opts : buildAndWatch) (GOOS : string) (r0 : BuildResult)
  (tr : list action) (s : state) :
  Watch opts = true -> hasErrors r0 = true ->
  exec opts GOOS (init opts r0) tr = Some s ->
  count is_rebuild tr = 0%nat /\ count is_start tr = 0%nat /\
  pc s <> CRebuild /\
  (pc s = CRestartWait ->
   forall a, ctl_action a = true -> step opts GOOS s a = None).
Proof.
  intros Hw Herr Hex.
  apply (exec_invariant opts GOOS failed_build_inv
           (fun a => is_rebuild a = false /\ is_start a = false)) in Hex.
  - destruct Hex as [Htr Hinv]. split_and!.
    + apply count_zero. eapply Forall_impl; [exact Htr|]. by intros ? [? ?].
    + apply count_zero. eapply Forall_impl; [exact Htr|]. by intros ? [? ?].
    + intros Hpc. destruct Hinv as (_ & _ & H). by rewrite Hpc in H.
    + intros Hpc a Ha. eapply failed_build_inv_blocked; eauto.
  - intros s1 a s2 H1 H2.
    destruct (failed_build_inv_step _ _ _ _ _ Hw H1 H2) as (? & ? & ?). auto.
  - by apply failed_build_inv_init.
Qed.

Lemma C3_witness :
  Watch watchMode = true /\ hasErrors failedResult = true /\
  count is_rebuild
    [CtlEnter; CtlCreate; RelayEvent; RelaySend; CtlSelRestart;
     Tick restartQuiet; CtlDrainDelay; CtlStop None] = 0%nat.
Proof.
  split; [reflexivity|]. split; [reflexivity|].
  destruct (exec watchMode "linux" (init watchMode failedResult)
    [CtlEnter; CtlCreate; RelayEvent; RelaySend; CtlSelRestart;
     Tick restartQuiet; CtlDrainDelay; CtlStop None]) as [s|] eqn:Hex;
    [|vm_compute in Hex; discriminate Hex].
  exact (proj1 (C3_failed_build_restart_blocks_in_waitDone watchMode "linux"
                  failedResult _ s eq_refl eq_refl Hex)).
Defined.

(** C4: in watch mode, when the first build has failed, [Run] never returns:
    after an abort the loop calls Stop, which returns nil for the process
    that was never started, and then blocks in [waitDone]. *)
Theorem C4_abort_while_waiting_never_returns
  (opts : buildAndWatch) (GOOS : string) (r0 : BuildResult)
  (tr : list action) (s : state) :
  Watch opts = true -> hasErrors r0 = true ->
  exec opts GOOS (init opts r0) tr = Some s ->
  Run_result opts s = None /\
  (pc s = CAbortWait ->
   forall a, ctl_action a = true -> step opts GOOS s a = None).
Proof.
  intros Hw Herr Hex.
  apply (exec_invariant_state opts GOOS failed_build_inv) in Hex.
  - split.
    + destruct Hex as (_ & _ & H). unfold Run_result.
      destruct (pc s); done.
    + intros Hpc a Ha. eapply failed_build_inv_blocked; eauto.
  - intros s1 a s2 H1 H2.
    by destruct (failed_build_inv_step _ _ _ _ _ Hw H1 H2) as (? & ? & ?).
  - by apply failed_build_inv_init.
Qed.

Lemma C4_witness :
  Watch watchMode = true /\ hasErrors failedResult = true /\
  exec watchMode "linux" (init watchMode failedResult)
    [CtlEnter; CtlCreate; Cancel; RelayCtxDone; CtlSelAbort; CtlStop None]
    ≫= (fun s => Some (abort s, pc s, Run_result watchMode s))
  = Some (true, CAbortWait, None).
Proof.
  split; [reflexivity|]. split; [reflexivity|].
  destruct (exec watchMode "linux" (init watchMode failedResult)
    [CtlEnter; CtlCreate; Cancel; RelayCtxDone; CtlSelAbort; CtlStop None])
    as [s|] eqn:Hex; [|vm_compute in Hex; discriminate Hex].
  pose proof (C4_abort_while_waiting_never_returns watchMode "linux"
                failedResult _ s eq_refl eq_refl Hex) as [Hr _].
  simpl. rewrite Hr. vm_compute in Hex. injection Hex as <-. reflexivity.
Defined.

(** With a running process the abort case does what it is meant to do: the
    process is stopped, its exit is received, and [Run] returns nil. *)
Example abort_while_running_returns_nil :
  exec watchMode "linux" (init watchMode okResult)
    [CtlEnter; CtlCreate; CtlStart (StartOK 4242); Cancel; RelayCtxDone;
     CtlSelAbort; CtlStop None; ProcExit 0 (Some (ExitError 143));
     WaiterSend 0; CtlWaitDone]
    ≫= (fun s => Some (Run_result watchMode s, oslog s))
  = Some (Some None,
          [Go [Sleep maxProcStopWait; Call (SysKill (-4242) SIGKILL)];
           Call (SysKill (-4242) SIGTERM)]).
Proof. reflexivity. Qed.

(** ** Errors of the notification source *)

Lemma nil_results_inv_step opts GOOS (s s' : state) (a : action) :
  Watch opts = true ->
  nil_results_inv s -> step opts GOOS s a = Some s' -> nil_results_inv s'.
Proof.
  intros Hw (Hg & Hc & Hr) Hs.
  step_inv Hs; unfold nil_results_inv; simpl; rewrite ?Hg;
    try (rewrite Hw in *; simpl in *; try rewrite andb_false_r in *);
    try done;
    split_and!; try done; intros; simplify_eq; eauto; try congruence;
    match goal with
    | H : recv_error ?m = _ |- _ => destruct m; simpl in *; by simplify_eq
    end.
Qed.

Lemma nil_results_inv_init opts (r0 : BuildResult) :
  Watch opts = true -> nil_results_inv (init opts r0).
Proof.
  intros Hw. unfold nil_results_inv, init; simpl. rewrite Hw.
  split_and!; [done| |]; intros; simplify_eq.
Qed.

(** C1, what the code does instead: in watch mode an error received from
    [watcher.Errors] changes nothing (the relay stays in its loop and abort is
    not closed); when the receive finds the channel closed the relay closes
    abort and returns the zero value it received, nil; and whatever happens,
    [Run] returns nil when it returns. *)
Theorem C1_watcher_error_is_dropped
  (opts : buildAndWatch) (GOOS : string) (r0 : BuildResult)
  (tr : list action) (s : state) (e : error) :
  Watch opts = true ->
  exec opts GOOS (init opts r0) tr = Some s ->
  (side s = RIdle -> step opts GOOS s (RelayErrors (Received e)) = Some s) /\
  (side s = RIdle ->
   exists s', step opts GOOS s (RelayErrors Closed) = Some s' /\
              abort s' = true /\ side s' = RReturned None) /\
  (forall r, Run_result opts s = Some r -> r = None).
Proof.
  intros Hw Hex. split_and!.
  - intros Hi. simpl. by rewrite Hi.
  - intros Hi. simpl. rewrite Hi. eexists. split; [done|]. done.
  - apply (exec_invariant_state opts GOOS nil_results_inv) in Hex.
    + destruct Hex as (Hg & _ & _). intros r Hr. unfold Run_result in Hr.
      rewrite Hw in Hr. repeat case_match; simplify_eq. done.
    + intros. by eapply nil_results_inv_step.
    + by apply nil_results_inv_init.
Qed.

Lemma C1_witness :
  Watch watchMode = true /\
  exec watchMode "linux" (init watchMode okResult)
    [CtlEnter; CtlCreate; CtlStart (StartOK 4242);
     RelayErrors (Received (Errno "too many open files"))]
  = exec watchMode "linux" (init watchMode okResult)
    [CtlEnter; CtlCreate; CtlStart (StartOK 4242)].
Proof.
  split; [reflexivity|].
  rewrite (exec_app watchMode "linux"
             [CtlEnter; CtlCreate; CtlStart (StartOK 4242)]
             [RelayErrors (Received (Errno "too many open files"))]).
  destruct (exec watchMode "linux" (init watchMode okResult)
              [CtlEnter; CtlCreate; CtlStart (StartOK 4242)])
    as [s|] eqn:Hex; [|vm_compute in Hex; discriminate Hex].
  pose proof (C1_watcher_error_is_dropped watchMode "linux" okResult _ s
                (Errno "too many open files") eq_refl Hex) as [H _].
  assert (Hi : side s = RIdle).
  { vm_compute in Hex. injection Hex as <-. reflexivity. }
  cbn [mbind option_bind exec]. rewrite (H Hi). reflexivity.
Defined.

(** ** The restart channel *)

Lemma restart_bound_step opts GOOS (s s' : state) (a : action) :
  (restart s <= restartCap)%nat -> step opts GOOS s a = Some s' ->
  (restart s' <= restartCap)%nat.
Proof.
  intros Hb Hs. step_inv Hs; simpl; unfold restartCap in *; lia.
Qed.

(** C2, as the code has it: at most one signal is ever queued in [restart].
    When the relay is at its send and the channel is empty the send completes
    and the signal is queued.  When a signal is already queued the relay is
    blocked: none of its actions can happen, whatever the other goroutines
    do it stays at the send, and the send completes as soon as the queued
    signal has been received.  The notification is not dropped. *)
Theorem C2_restart_send_blocks_when_pending
  (opts : buildAndWatch) (GOOS : string) (r0 : BuildResult)
  (tr : list action) (s : state) :
  exec opts GOOS (init opts r0) tr = Some s ->
  (restart s <= restartCap)%nat /\
  (side s = RSending ->
   (restart s = 0%nat ->
    exists s', step opts GOOS s RelaySend = Some s' /\
               restart s' = 1%nat /\ side s' = RIdle) /\
   (restart s = 1%nat ->
    (forall a, relay_action a = true -> step opts GOOS s a = None) /\
    (forall a s1, step opts GOOS s a = Some s1 ->
       side s1 = RSending /\
       (restart s1 = 0%nat ->
        exists s2, step opts GOOS s1 RelaySend = Some s2 /\
                   restart s2 = 1%nat /\ side s2 = RIdle)))).
Proof.
  intros Hex. split.
  - apply (exec_invariant_state opts GOOS
             (fun s => (restart s <= restartCap)%nat)) in Hex; [done| |].
    + intros. by eapply restart_bound_step.
    + simpl. unfold restartCap. lia.
  - intros Hsd. split.
    + intros H0. simpl. rewrite Hsd, H0. simpl. eauto.
    + intros H1. split.
      * intros a Ha. destruct a; try done; simpl; rewrite Hsd; try done.
        rewrite H1. done.
      * intros a s1 Hs.
        assert (Hs1 : side s1 = RSending).
        { step_inv Hs; simpl; try done; try congruence.
          unfold restartCap in *; lia. }
        split; [done|]. intros H0. simpl. rewrite Hs1, H0. simpl. eauto.
Qed.

Lemma C2_witness :
  exec watchMode "linux" (init watchMode okResult)
    [RelayEvent; RelaySend; RelayEvent]
    ≫= (fun s => Some (side s, restart s)) = Some (RSending, 1%nat) /\
  exec watchMode "linux" (init watchMode okResult)
    [RelayEvent; RelaySend; RelayEvent; RelayEventsClosed] = None.
Proof.
  split; [reflexivity|].
  rewrite (exec_app watchMode "linux" [RelayEvent; RelaySend; RelayEvent]
             [RelayEventsClosed]).
  destruct (exec watchMode "linux" (init watchMode okResult)
              [RelayEvent; RelaySend; RelayEvent])
    as [s|] eqn:Hex; [|reflexivity].
  destruct (C2_restart_send_blocks_when_pending watchMode "linux" okResult _ s
              Hex) as [_ H].
  assert (Hs : side s = RSending /\ restart s = 1%nat).
  { vm_compute in Hex. injection Hex as <-. split; reflexivity. }
  destruct Hs as [Hsd Hr]. destruct (H Hsd) as [_ H1].
  destruct (H1 Hr) as [Hb _].
  cbn [mbind option_bind exec]. rewrite (Hb RelayEventsClosed eq_refl).
  reflexivity.
Defined.

(** C2 as it is written fails: with one signal queued and a second
    notification in the relay's hands, the send can not complete, and the
    relay does not go back to its select either. *)
Lemma C2_counterexample :
  exec watchMode "linux" (init watchMode okResult)
    [RelayEvent; RelaySend; RelayEvent]
    ≫= (fun s => Some (side s, restart s,
                        step watchMode "linux" s RelaySend))
  = Some (RSending, 1%nat, None).
Proof. reflexivity. Qed.
(** ** After the abort case *)

Lemma tearing_down_step opts GOOS (s s' : state) (a : action) :
  tearing_down s -> step opts GOOS s a = Some s' ->
  (ctl_action a = true -> teardown_action a = true) /\ tearing_down s'.
Proof.
  intros Ht Hs. unfold tearing_down in *.
  step_inv Hs; simpl; auto.
Qed.

Lemma abort_once_inv_step opts GOOS (s s' : state) (a : action) :
  abort_once_inv s -> step opts GOOS s a = Some s' ->
  (closes_abort a = true -> abort s = false) /\ abort_once_inv s'.
Proof.
  intros Hinv Hs. unfold abort_once_inv in *.
  destruct (abort s) eqn:Hab.
  - specialize (Hinv eq_refl).
    step_inv Hs; simpl; split; try done; try (intros _; by rewrite ?Hab);
      try (by destruct (side s)); try congruence.
  - clear Hinv. step_inv Hs; simpl; rewrite ?Hab; split; try done;
      try congruence.
Qed.

Lemma in_flight_step opts GOOS (s s' : state) (a : action) :
  step opts GOOS s a = Some s' ->
  ((if is_rebuild a then 1 else 0) + in_flight s'
   <= (if is_event a then 1 else 0) + in_flight s)%nat.
Proof.
  intros Hs. unfold in_flight.
  step_inv Hs; simpl;
    repeat match goal with
    | H : pc ?s = _ |- context [pc ?s] => rewrite H
    | H : side ?s = _ |- context [side ?s] => rewrite H
    | H : restart ?s = _ |- context [restart ?s] => rewrite H
    end;
    repeat match goal with
    | |- context [match side ?s with _ => _ end] => destruct (side s)
    | |- context [match pc ?s with _ => _ end] => destruct (pc s)
    | |- context [if ?b then _ else _] => destruct b
    end; simpl in *; try lia; try done; try congruence.
Qed.

(** Once abort is closed it stays closed, and the goroutine that closed it
    has returned: the relay takes no action any more. *)
Lemma abort_closed_step opts GOOS (s s' : state) (a : action) :
  abort s = true /\ abort_once_inv s -> step opts GOOS s a = Some s' ->
  relay_action a = false /\ (abort s' = true /\ abort_once_inv s').
Proof.
  intros [Hab Hinv] Hs.
  destruct (abort_once_inv_step opts GOOS s s' a Hinv Hs) as [_ Hinv'].
  specialize (Hinv Hab).
  assert (Hab' : abort s' = true) by (step_inv Hs; simpl; done).
  split; [|done].
  destruct a; try done; simpl in Hs; destruct (side s); done.
Qed.

(** A restart signal that is queued when abort is closed can still be
    served: the start under way, then a whole restart cycle. *)
Lemma restart_served_after_abort opts GOOS (r0 r1 : BuildResult)
  (pid pid' : Z) (st : goerror) :
  Watch opts = true -> hasErrors r0 = false -> hasErrors r1 = false ->
  exists s1 s2,
    exec opts GOOS (init opts r0) abort_with_restart_queued = Some s1 /\
    abort s1 = true /\ pc s1 = CStart /\
    exec opts GOOS s1 (start_and_restart_cycle pid st r1 pid') = Some s2 /\
    pc s2 = CSelect /\
    cmd <$> procs s2 = [{| Process := Some pid |}; {| Process := Some pid' |}].
Proof.
  intros HW Hr0 Hr1.
  change (start_and_restart_cycle pid st r1 pid') with
    ([CtlStart (StartOK pid); CtlSelRestart; Tick restartQuiet;
      CtlDrainDelay] ++ [CtlStop None] ++
     [ProcExit 0 st; WaiterSend 0; CtlWaitDone;
      CtlRebuild r1; CtlCreate; CtlStart (StartOK pid')]).
  unfold abort_with_restart_queued.
  destruct r0 as [[|e0 errs0]]; [|discriminate Hr0].
  destruct r1 as [[|e1 errs1]]; [|discriminate Hr1].
  unfold init. rewrite HW.
  destruct (isWindows GOOS) eqn:HG.
  all: eexists _, _; (split; [vm_compute; reflexivity|]).
  all: split; [reflexivity|]; (split; [reflexivity|]).
  all: rewrite !exec_app.
  all: match goal with
       | |- context [exec ?o ?g ?s ?l ≫= _] =>
           let x := eval vm_compute in (exec o g s l) in
           replace (exec o g s l) with x by (vm_compute; reflexivity)
       end.
  all: cbn [mbind option_bind].
  all: cbn [app]; rewrite exec_cons.
  all: cbn [step pc]; unfold do_stop, curProc, Stop;
       cbn [procs proc lookup list_lookup cmd Process]; rewrite HG;
       cbn [mbind option_bind].
  all: match goal with
       | |- context [exec ?o ?g ?s ?l] =>
           let x := eval vm_compute in (exec o g s l) in
           replace (exec o g s l) with x by (vm_compute; reflexivity)
       end.
  all: split; [reflexivity|]; split; reflexivity.
Qed.

(** C5, as the code has it.  Teardown only holds from the moment the loop
    takes the abort case of its select: every action it takes from then on
    is a call of Stop or the wait for [done]; no process is created or
    started and nothing is rebuilt.  The close of abort alone does not have
    this effect, because abort is read nowhere but in that select, where the
    restart case can be taken as well: what the close stops is the relay,
    which takes no action after it, so that the loop rebuilds at most once
    for each restart signal that was in flight at the close, at most twice.
    And such a signal is served: in watch mode, with a signal queued when
    abort is closed, the start under way happens, the restart case can be
    taken, and a whole cycle follows in which the process is stopped, the
    code is rebuilt and a second process is started. *)
Theorem C5_only_teardown_after_abort_case
  (opts : buildAndWatch) (GOOS : string) (r0 : BuildResult) :
  (forall (tr1 tr2 : list action) (s : state),
     exec opts GOOS (init opts r0) (tr1 ++ CtlSelAbort :: tr2) = Some s ->
     Forall (fun a => ctl_action a = true -> teardown_action a = true) tr2 /\
     count is_start tr2 = 0%nat /\ count is_rebuild tr2 = 0%nat /\
     tearing_down s) /\
  (forall (tr1 tr2 : list action) (s1 s : state),
     exec opts GOOS (init opts r0) tr1 = Some s1 -> abort s1 = true ->
     exec opts GOOS s1 tr2 = Some s ->
     abort s = true /\
     Forall (fun a => relay_action a = false) tr2 /\
     (count is_rebuild tr2 <= in_flight s1)%nat /\ (in_flight s1 <= 2)%nat) /\
  (Watch opts = true -> hasErrors r0 = false ->
   forall (pid pid' : Z) (st : goerror) (r1 : BuildResult),
     hasErrors r1 = false ->
     exists s1 s2,
       exec opts GOOS (init opts r0) abort_with_restart_queued = Some s1 /\
       abort s1 = true /\
       exec opts GOOS s1 (start_and_restart_cycle pid st r1 pid') = Some s2 /\
       pc s2 = CSelect /\
       cmd <$> procs s2 =
         [{| Process := Some pid |}; {| Process := Some pid' |}] /\
       count is_start (start_and_restart_cycle pid st r1 pid') = 2%nat /\
       count is_rebuild (start_and_restart_cycle pid st r1 pid') = 1%nat).
Proof.
  split_and!.
  - intros tr1 tr2 s Hex. rewrite exec_app in Hex.
    destruct (exec opts GOOS (init opts r0) tr1) as [s1|]; [|done].
    change (exec opts GOOS s1 (CtlSelAbort :: tr2) = Some s) in Hex.
    rewrite exec_cons in Hex.
    destruct (step opts GOOS s1 CtlSelAbort) as [s2|] eqn:Hs; [|done].
    change (exec opts GOOS s2 tr2 = Some s) in Hex.
    assert (Ht : tearing_down s2).
    { unfold tearing_down. step_inv Hs; done. }
    apply (exec_invariant opts GOOS tearing_down
             (fun a => ctl_action a = true -> teardown_action a = true)) in Hex;
      [|intros; by eapply tearing_down_step|done].
    destruct Hex as [Hall Hfin]. split_and!; try done.
    + apply count_zero. eapply Forall_impl; [exact Hall|].
      intros [] H; simpl in *; try done. by specialize (H eq_refl).
    + apply count_zero. eapply Forall_impl; [exact Hall|].
      intros [] H; simpl in *; try done. by specialize (H eq_refl).
  - intros tr1 tr2 s1 s Hex1 Hab Hex2.
    assert (Hinv : abort_once_inv s1).
    { apply (exec_invariant_state opts GOOS abort_once_inv) in Hex1; [done| |].
      - intros sa a sb Ha Hs.
        by destruct (abort_once_inv_step _ _ _ _ _ Ha Hs).
      - unfold abort_once_inv, init; simpl. done. }
    assert (Hcap : (restart s1 <= restartCap)%nat).
    { apply (exec_invariant_state opts GOOS
               (fun s => (restart s <= restartCap)%nat)) in Hex1; [done| |].
      - intros. by eapply restart_bound_step.
      - simpl. unfold restartCap. lia. }
    pose proof Hex2 as Hex3.
    apply (exec_invariant opts GOOS
             (fun s => abort s = true /\ abort_once_inv s)
             (fun a => relay_action a = false)) in Hex2;
      [|intros; by eapply abort_closed_step|done].
    destruct Hex2 as [Hall [Hab' _]].
    apply (exec_potential opts GOOS is_rebuild is_event in_flight
             (fun _ => True)) in Hex3;
      [|intros sa a sb _ Hs; split; [done|by eapply in_flight_step]|done].
    destruct Hex3 as [_ Hpot].
    assert (Hev : count is_event tr2 = 0%nat).
    { apply count_zero. eapply Forall_impl; [exact Hall|].
      by intros []. }
    split_and!; [done|done|lia|].
    specialize (Hinv Hab). unfold in_flight, restartCap in *.
    destruct (side s1); try done; destruct (pc s1); lia.
  - intros HW Hr0 pid pid' st r1 Hr1.
    destruct (restart_served_after_abort opts GOOS r0 r1 pid pid' st HW Hr0 Hr1)
      as (s1 & s2 & H1 & H2 & _ & H3 & H4 & H5).
    exists s1, s2. split_and!; done.
Qed.

Lemma C5_witness :
  exec oneShot "linux" (init oneShot okResult)
    ([CtlEnter; CtlCreate; CtlStart (StartOK 4242); Cancel; CtxClose] ++
     CtlSelAbort ::
     [CtlStop None; ProcExit 0 None; WaiterSend 0; CtlWaitDone])
    ≫= (fun s => Some (pc s)) = Some (CReturned None) /\
  count is_start [CtlStop None; ProcExit 0 None; WaiterSend 0; CtlWaitDone]
  = 0%nat /\
  (count is_rebuild (start_and_restart_cycle 4242 None okResult 4243) <= 2)%nat.
Proof.
  split; [reflexivity|]. split.
  - destruct (exec oneShot "linux" (init oneShot okResult)
      ([CtlEnter; CtlCreate; CtlStart (StartOK 4242); Cancel; CtxClose] ++
       CtlSelAbort ::
       [CtlStop None; ProcExit 0 None; WaiterSend 0; CtlWaitDone]))
      as [s|] eqn:Hex; [|vm_compute in Hex; discriminate Hex].
    exact (proj1 (proj2 (proj1 (C5_only_teardown_after_abort_case oneShot
                                  "linux" okResult) _ _ s Hex))).
  - destruct (exec watchMode "linux" (init watchMode okResult)
                abort_with_restart_queued) as [s1|] eqn:Hex1;
      [|vm_compute in Hex1; discriminate Hex1].
    destruct (exec watchMode "linux" s1
                (start_and_restart_cycle 4242 None okResult 4243))
      as [s2|] eqn:Hex2.
    + assert (Hab : abort s1 = true).
      { vm_compute in Hex1. injection Hex1 as <-. reflexivity. }
      destruct (proj1 (proj2 (C5_only_teardown_after_abort_case watchMode
                                "linux" okResult)) _ _ s1 s2 Hex1 Hab Hex2)
        as (_ & _ & H1 & H2).
      lia.
    + vm_compute in Hex1. injection Hex1 as <-.
      vm_compute in Hex2. discriminate Hex2.
Defined.

(** C5 as it is written fails: abort is closed while the loop is on its way
    to line 99, and the loop still starts the process. *)
Lemma C5_counterexample :
  exec oneShot "linux" (init oneShot okResult)
    [CtlEnter; Cancel; CtxClose; CtlCreate]
    ≫= (fun s => Some (abort s,
                        step oneShot "linux" s (CtlStart (StartOK 4242))
                          ≫= fun s' => Some (cmd <$> procs s', pc s')))
  = Some (true, Some ([{| Process := Some 4242 |}], CSelect)).
Proof. reflexivity. Qed.


(** ** One-shot mode *)



Lemma oneshot_inv_step opts GOOS (s s' : state) (a : action) :
  Watch opts = false ->
  oneshot_inv s -> a <> CtlSelAbort -> step opts GOOS s a = Some s' ->
  oneshot_inv s'.
Proof.
  intros Hw (Hr & Hsd & Hch & Hpc) Ha Hs.
  destruct (pc s) eqn:Hp; try done.
  - destruct Hpc as [Hps Hg].
    destruct Hsd as [Hsd|Hsd];
    step_inv Hs; unfold oneshot_inv; simpl; rewrite ?Hp, ?Hg;
    try (rewrite Hw in *; simpl in *);
    try (rewrite Hps in *; simpl in *; one_proc); try congruence;
    split_and!; auto; oneshot_fin.
  - destruct Hpc as (Hps & Hg & Hb & Hwf).
    destruct Hsd as [Hsd|Hsd];
    step_inv Hs; unfold oneshot_inv; simpl; rewrite ?Hp, ?Hg;
    try (rewrite Hw in *; simpl in *);
    try (rewrite Hps in *; simpl in *; one_proc); try congruence;
    split_and!; auto; oneshot_fin.
    all: try rewrite Hb in *; try rewrite Hwf in *; simpl in *; try done.
  - destruct Hpc as (Hps & Hpr & Hg).
    destruct Hsd as [Hsd|Hsd];
    step_inv Hs; unfold oneshot_inv, curProc in *; simpl; rewrite ?Hp, ?Hg;
    try (rewrite Hw in *; simpl in *);
    try rewrite Hpr in *;
    try (rewrite Hps in *; simpl in *; one_proc); try congruence;
    split_and!; auto; oneshot_fin.
  - destruct Hpc as ((p & Hps & Hst) & Hpr & Hg).
    destruct Hsd as [Hsd|Hsd];
    step_inv Hs; unfold oneshot_inv, curProc in *; simpl; rewrite ?Hp, ?Hg;
    try (rewrite Hw in *; simpl in *);
    try rewrite Hpr in *;
    try (rewrite Hps in *; simpl in *; one_proc); try congruence;
    split_and!; auto; oneshot_fin.
    all: unfold Wait in *; simpl in *; repeat case_match; simplify_eq.
    all: try (split; [intros e He; first [apply H in He; congruence | congruence] | done]).
    all: try (right; right; eexists; split_and!; [done|done|simpl; auto]).
  - destruct Hpc as (Hg & [(Hps & Hrb & Hhe)|[(Hps & Hrn)|(p & Hps & Hst & Hex)]]);
    destruct Hsd as [Hsd|Hsd];
    step_inv Hs; unfold oneshot_inv, curProc in *; simpl; rewrite ?Hp;
    try (rewrite Hw in *; simpl in *);
    try (rewrite Hps in *; simpl in *; one_proc); try congruence;
    split_and!; auto; oneshot_fin.
    all: unfold Wait in *; simpl in *; repeat case_match; simplify_eq.
    all: split; [intros e He; congruence | done].
Qed.

Lemma oneshot_inv_init opts (r0 : BuildResult) :
  Watch opts = false -> oneshot_inv (init opts r0).
Proof.
  intros Hw. unfold oneshot_inv, init; simpl. rewrite Hw. split_and!; auto.
Qed.

Lemma exec_invariant_under opts GOOS (P : state -> Prop) (Q : action -> Prop) :
  (forall s a s', P s -> Q a -> step opts GOOS s a = Some s' -> P s') ->
  forall tr s s', P s -> Forall Q tr -> exec opts GOOS s tr = Some s' -> P s'.
Proof.
  intros Hstep. induction tr as [|a tr IH]; intros s s' HP HQ Hex; simpl in Hex.
  - by simplify_eq.
  - destruct (step opts GOOS s a) as [s1|] eqn:Hs; [|done].
    apply Forall_cons in HQ as [Hq HQ]. eauto.
Qed.


Lemma build_failed_inv_step opts GOOS (s s' : state) (a : action) :
  Watch opts = false ->
  build_failed_inv s -> step opts GOOS s a = Some s' ->
  is_start a = false /\ a <> CtlCreate /\ build_failed_inv s'.
Proof.
  intros Hw [Hps [(Hp & Hb & Hg)|(Hp & Hg)]] Hs;
    step_inv Hs; unfold build_failed_inv; simpl;
    try (rewrite Hw in *; simpl in *);
    try (rewrite Hps in *; simpl in *);
    try rewrite andb_true_r in *;
    try congruence;
    try rewrite Hg; try rewrite Hb;
    split_and!; auto; try done; try congruence.
  destruct m; simpl in *; simplify_eq. by left.
Qed.


(** C7: in one-shot mode, when the first build has errors the loop returns
    "build error" from its first step, [Run] returns it, and no schedule ever
    creates or starts a process.  When the build has no errors, the process
    is started and exits with status [st], the loop receives [st] from [done]
    and [Run] returns it; and in every schedule in which the abort case is not
    taken, what [Run] returns after the child has exited is its exit
    status. *)
Theorem C7_oneshot_result
  (opts : buildAndWatch) (GOOS : string) (r0 : BuildResult) :
  Watch opts = false ->
  (hasErrors r0 = true ->
   exec opts GOOS (init opts r0) [CtlEnter] ≫= Run_result opts
     = Some (Some build_error) /\
   forall tr s, exec opts GOOS (init opts r0) tr = Some s ->
     procs s = [] /\ count is_start tr = 0%nat /\
     forall r, Run_result opts s = Some r -> r = Some build_error) /\
  (hasErrors r0 = false -> forall pid st,
   exec opts GOOS (init opts r0)
     [CtlEnter; CtlCreate; CtlStart (StartOK pid); ProcExit 0 st;
      WaiterSend 0; CtlSelDone] ≫= Run_result opts
     = Some st) /\
  (forall tr s p st r,
     exec opts GOOS (init opts r0) tr = Some s ->
     Forall (fun a => a <> CtlSelAbort) tr ->
     procs s !! 0%nat = Some p -> exited p = Some st ->
     Run_result opts s = Some r -> r = st).
Proof.
  intros Hw. split_and!.
  - intros Hb. split.
    + simpl. rewrite Hb, Hw. simpl. unfold Run_result. simpl. by rewrite Hw.
    + intros tr s Hex.
      apply (exec_invariant opts GOOS build_failed_inv
               (fun a => is_start a = false)) in Hex.
      * destruct Hex as [Htr [Hps Hpc]]. split_and!; [done|by apply count_zero|].
        intros r Hr. unfold Run_result in Hr. rewrite Hw in Hr.
        destruct Hpc as [(Hp & _)|(Hp & Hg)]; rewrite Hp in Hr; [done|].
        congruence.
      * intros s1 a s2 H1 H2.
        destruct (build_failed_inv_step _ _ _ _ _ Hw H1 H2) as (? & _ & ?).
        done.
      * split; [done|]. left. by split_and!.
  - intros Hb pid st. simpl.
    repeat (progress (rewrite ?Hb, ?Hw; simpl)).
    unfold Run_result; simpl. by rewrite Hw.
  - intros tr s p st r Hex Hna Hp Hst Hr.
    apply (exec_invariant_under opts GOOS oneshot_inv
             (fun a => a <> CtlSelAbort)) in Hex;
      [|intros; by eapply oneshot_inv_step|by apply oneshot_inv_init|done].
    destruct Hex as (_ & _ & _ & Hpc). unfold Run_result in Hr.
    rewrite Hw in Hr. destruct (pc s) eqn:Hpcs; try done.
    destruct Hpc as (Hg & [(Hps & _)|[(Hps & _)|(q & Hps & _ & Hq)]]);
      rewrite Hps in Hp; simplify_eq/=; congruence.
Qed.

Lemma C7_witness :
  Watch oneShot = false /\ hasErrors okResult = false /\
  exec oneShot "linux" (init oneShot okResult)
    [CtlEnter; CtlCreate; CtlStart (StartOK 4242);
     ProcExit 0 (Some (ExitError 7)); WaiterSend 0; CtlSelDone]
    ≫= Run_result oneShot
  = Some (Some (ExitError 7)).
Proof.
  split; [reflexivity|]. split; [reflexivity|].
  exact (proj1 (proj2 (C7_oneshot_result oneShot "linux" okResult eq_refl))
           eq_refl 4242 (Some (ExitError 7))).
Defined.

(** ** Processes are started in turn *)

Lemma lookup_alter_cases (f : procState -> procState) (l : list procState)
  (i j : nat) (q : procState) :
  alter f i l !! j = Some q ->
  (i <> j /\ l !! j = Some q) \/
  (i = j /\ exists p, l !! j = Some p /\ q = f p).
Proof.
  intros H. destruct (decide (i = j)) as [->|Hne].
  - rewrite list_lookup_alter_eq in H. right. split; [done|].
    destruct (l !! j) as [p|]; simplify_eq/=. eauto.
  - rewrite list_lookup_alter_ne in H by done. auto.
Qed.

Lemma proc_wf_alter (f : procState -> procState) (l : list procState) (i : nat) :
  (forall p, l !! i = Some p -> proc_wf p -> proc_wf (f p)) ->
  Forall proc_wf l -> Forall proc_wf (alter f i l).
Proof.
  intros Hf Hl. apply Forall_lookup. intros j q Hq.
  apply lookup_alter_cases in Hq as [[_ Hq]|[-> (p & Hp & ->)]].
  - eapply Forall_lookup_1; eauto.
  - apply Hf; [done|]. eapply Forall_lookup_1; eauto.
Qed.

(** An update that keeps what was confirmed and starts nothing. *)
Lemma started_in_turn_alter (f : procState -> procState)
  (l : list procState) (i : nat) :
  (forall p, l !! i = Some p ->
     (started (f p) -> started p) /\
     (confirmed_stopped p -> confirmed_stopped (f p))) ->
  started_in_turn l -> started_in_turn (alter f i l).
Proof.
  intros Hf HA a b qa qb Hab Ha Hb Hsa Hsb.
  apply lookup_alter_cases in Ha as [[_ Ha]|[-> (pa & Ha & ->)]];
    apply lookup_alter_cases in Hb as [[_ Hb]|[-> (pb & Hb & ->)]];
    try lia.
  - eauto.
  - destruct (Hf _ Hb) as [Hs _]. eauto.
  - destruct (Hf _ Ha) as [Hs Hc]. apply Hc. eauto.
Qed.

Lemma all_confirmed_alter (f : procState -> procState)
  (l : list procState) (i : nat) :
  (forall p, l !! i = Some p ->
     (started (f p) -> started p) /\
     (confirmed_stopped p -> confirmed_stopped (f p))) ->
  all_confirmed l -> all_confirmed (alter f i l).
Proof.
  intros Hf HA a qa Ha Hsa.
  apply lookup_alter_cases in Ha as [[_ Ha]|[-> (pa & Ha & ->)]].
  - eauto.
  - destruct (Hf _ Ha) as [Hs Hc]. eauto.
Qed.

(** An update of the process made last that starts nothing. *)
Lemma started_in_turn_alter_last (f : procState -> procState)
  (l : list procState) (i : nat) :
  S i = length l ->
  (forall p, l !! i = Some p -> started (f p) -> started p) ->
  started_in_turn l -> started_in_turn (alter f i l).
Proof.
  intros Hi Hf HA a b qa qb Hab Ha Hb Hsa Hsb.
  assert (b < length l)%nat.
  { apply lookup_lt_Some in Hb. by rewrite length_alter in Hb. }
  apply lookup_alter_cases in Ha as [[_ Ha]|[-> _]]; [|lia].
  apply lookup_alter_cases in Hb as [[_ Hb]|[-> (pb & Hb & ->)]]; eauto.
Qed.

(** Starting the process made last, all the others being confirmed. *)
Lemma started_in_turn_start (f : procState -> procState)
  (l : list procState) (i : nat) :
  S i = length l -> all_confirmed l ->
  started_in_turn l -> started_in_turn (alter f i l).
Proof.
  intros Hi Hall HA a b qa qb Hab Ha Hb Hsa Hsb.
  assert (b < length l)%nat.
  { apply lookup_lt_Some in Hb. by rewrite length_alter in Hb. }
  apply lookup_alter_cases in Ha as [[_ Ha]|[-> _]]; [|lia].
  eauto.
Qed.

Lemma started_in_turn_snoc (l : list procState) :
  started_in_turn l -> started_in_turn (l ++ [newProc]).
Proof.
  intros HA a b qa qb Hab Ha Hb Hsa Hsb.
  apply lookup_snoc_Some in Hb as [[Hlt Hb]|[_ <-]]; [|done].
  apply lookup_snoc_Some in Ha as [[_ Ha]|[Hl _]]; [|lia].
  eauto.
Qed.

Lemma all_confirmed_snoc (l : list procState) :
  all_confirmed l -> all_confirmed (l ++ [newProc]).
Proof.
  intros HA a qa Ha Hsa.
  apply lookup_snoc_Some in Ha as [[_ Ha]|[_ <-]]; [eauto|done].
Qed.

(** The whole list is confirmed once the process made last is, when it was
    started. *)
Lemma all_confirmed_last (l : list procState) (i : nat) (p : procState) :
  S i = length l -> l !! i = Some p -> started p -> confirmed_stopped p ->
  started_in_turn l -> all_confirmed l.
Proof.
  intros Hi Hp Hs Hc HA a qa Ha Hsa.
  assert (a < length l)%nat by by apply lookup_lt_Some in Ha.
  destruct (decide (a = i)) as [->|Hne]; [by simplify_eq|].
  eapply (HA a i); eauto. lia.
Qed.

Lemma restart_inv_env (s : state) (i : nat) (f : procState -> procState)
  (p0 : procState) :
  restart_inv s -> procs s !! i = Some p0 ->
  (proc_wf p0 -> proc_wf (f p0)) ->
  (started (f p0) -> started p0) ->
  (confirmed_stopped p0 -> confirmed_stopped (f p0)) ->
  stopped (f p0) = stopped p0 ->
  ~ never_started p0 ->
  restart_inv (updProc i f s).
Proof.
  intros (Hwf & HA & Hpc) Hp0 Hfwf Hfs Hfc Hfst Hns.
  assert (Hf : forall p, procs s !! i = Some p ->
            (started (f p) -> started p) /\
            (confirmed_stopped p -> confirmed_stopped (f p))).
  { intros p Hp. by simplify_eq. }
  unfold restart_inv, cur_last, curProc in *; simpl.
  split_and!.
  - apply proc_wf_alter; [|done]. intros p Hp. by simplify_eq.
  - by apply started_in_turn_alter.
  - destruct (pc s); rewrite ?length_alter; auto.
    + rewrite Hpc in Hp0. by rewrite lookup_nil in Hp0.
    + intros Hw. apply all_confirmed_alter; auto.
    + destruct Hpc as (Hl & Hall & p & Hp & Hpn). split_and!; [done| |].
      * by apply all_confirmed_alter.
      * exists p. split; [|done].
        destruct (decide (i = proc s)) as [->|Hne]; [by simplify_eq|].
        by rewrite list_lookup_alter_ne.
    + destruct Hpc as (Hl & p & Hp & Hst). split; [done|].
      destruct (decide (i = proc s)) as [->|Hne].
      * assert (p0 = p) as -> by congruence.
        exists (f p). rewrite list_lookup_alter_eq, Hp.
        split; [done|]. congruence.
      * exists p. by rewrite list_lookup_alter_ne.
    + by apply all_confirmed_alter.
Qed.

Lemma confirmed_set_exited (st : goerror) (p : procState) :
  confirmed_stopped p -> confirmed_stopped (set_exited (Some st) p).
Proof.
  intros (r & Hr & Ho). exists r. split; [done|]. intros ->.
  destruct (Ho eq_refl) as (? & ? & ?). by repeat split.
Qed.

Lemma confirmed_set_done_None (p : procState) :
  confirmed_stopped p -> confirmed_stopped (set_done None p).
Proof.
  intros (r & Hr & Ho). exists r. split; [done|]. intros ->.
  destruct (Ho eq_refl) as (? & ? & ?). by repeat split.
Qed.

Lemma all_confirmed_nil : all_confirmed [].
Proof. intros i p Hp. by rewrite lookup_nil in Hp. Qed.

Lemma restart_inv_step opts GOOS (s s' : state) (a : action) :
  restart_inv s -> step opts GOOS s a = Some s' -> restart_inv s'.
Proof.
  intros Hinv Hs.
  destruct a; try (simpl in Hs; repeat case_match; simplify_eq;
    destruct Hinv as (Hwf & HA & Hpc); unfold restart_inv; simpl;
    by split_and!).
  - (* the child exits *)
    simpl in Hs. destruct (procs s !! i) as [p0|] eqn:Hp0; [|done].
    destruct (Process (cmd p0)) eqn:Hpr; [|done].
    destruct (exited p0) eqn:Hex; [done|]. simplify_eq.
    eapply restart_inv_env; eauto.
    + intros [H1 H2]. split; [done|]. intros e He.
      destruct (H2 e He) as (? & ? & ?). by repeat split.
    + apply confirmed_set_exited.
    + intros (? & _). congruence.
  - (* done <- proc.Wait() *)
    simpl in Hs. destruct (procs s !! i) as [p0|] eqn:Hp0; [|done].
    destruct (waiter p0) eqn:Hwt; [|done].
    destruct (Wait p0) as [st|] eqn:Hwa; [|done].
    destruct (done p0) eqn:Hd; [done|]. simplify_eq.
    eapply restart_inv_env; eauto.
    + intros [H1 H2]. destruct (H1 Hwt) as [Hst _].
      split; [done|]. simpl. intros e He. simplify_eq.
      split_and!; [done| |done].
      unfold Wait in Hwa. unfold started in Hst.
      destruct (Process (cmd p0)); [|done]. congruence.
    + intros (r & Hr & Ho). exists r. split; [done|]. intros ->.
      destruct (Ho eq_refl) as (? & ? & ?). congruence.
    + intros (? & ? & _). congruence.
  - (* line 80 *)
    destruct Hinv as (Hwf & HA & Hpc). unfold restart_inv in *.
    simpl in Hs. repeat case_match; simplify_eq; simpl; split_and!; try done.
    intros _. rewrite Hpc. apply all_confirmed_nil.
  - (* lines 88-97 *)
    destruct Hinv as (Hwf & HA & Hpc). unfold restart_inv, cur_last, curProc in *.
    simpl in Hs. destruct (pc s); try done. simplify_eq. simpl.
    split_and!.
    + apply Forall_app. split; [done|]. by repeat constructor.
    + by apply started_in_turn_snoc.
    + rewrite length_app; simpl.
      destruct (negb (hasErrors (result s)) && negb (waitForChange s)) eqn:Hss;
        simpl; [|lia].
      apply andb_true_iff in Hss as [_ Hwc]. apply negb_true_iff in Hwc.
      split_and!; [lia|by apply all_confirmed_snoc; auto|].
      exists newProc. split; [|by repeat split].
      by rewrite lookup_app_r, Nat.sub_diag.
  - (* proc.Start() *)
    destruct Hinv as (Hwf & HA & Hpc). unfold restart_inv, cur_last, curProc in *.
    simpl in Hs. destruct (pc s); try done.
    destruct Hpc as (Hl & Hall & p & Hp & Hns).
    destruct r as [pid|e]; [|destruct (negb (Watch opts))]; simplify_eq; simpl;
      try by split_and!.
    rewrite length_alter. split_and!; [| |done].
    + apply proc_wf_alter; [|done]. intros q Hq _.
      assert (q = p) as -> by congruence.
      destruct Hns as (? & ? & ? & ?). split; simpl.
      * intros _. split; [|done]. unfold started; simpl. done.
      * intros e He. congruence.
    + by apply started_in_turn_start.
  - (* case <-abort *)
    destruct Hinv as (Hwf & HA & Hpc). unfold restart_inv in *.
    simpl in Hs. repeat case_match; simplify_eq; simpl; by split_and!.
  - (* case <-restart *)
    destruct Hinv as (Hwf & HA & Hpc). unfold restart_inv in *.
    simpl in Hs. repeat case_match; simplify_eq; simpl; by split_and!.
  - (* case err := <-done *)
    destruct Hinv as (Hwf & HA & Hpc). unfold restart_inv, cur_last, curProc in *.
    simpl in Hs. unfold curProc in Hs. destruct (pc s); try done.
    destruct (procs s !! proc s) as [p|] eqn:Hp; [|done].
    destruct (done p) as [err|] eqn:Hd; [|done].
    assert (Hwf' : Forall proc_wf (alter (set_done None) (proc s) (procs s))).
    { apply proc_wf_alter; [|done]. intros q Hq [H1 H2]. split; simpl; [|done].
      intros Hw. destruct (H1 Hw). done. }
    assert (HA' : started_in_turn (alter (set_done None) (proc s) (procs s))).
    { apply started_in_turn_alter_last; auto. }
    destruct (negb (Watch opts)); simplify_eq; simpl; by split_and!.
  - (* the drain loop, case <-restart *)
    destruct Hinv as (Hwf & HA & Hpc). unfold restart_inv in *.
    simpl in Hs. repeat case_match; simplify_eq; simpl; by split_and!.
  - (* the drain loop, case <-delay *)
    destruct Hinv as (Hwf & HA & Hpc). unfold restart_inv in *.
    simpl in Hs. repeat case_match; simplify_eq; simpl; by split_and!.
  - (* proc.Stop() *)
    destruct Hinv as (Hwf & HA & Hpc). unfold restart_inv, cur_last, curProc in *.
    simpl in Hs. unfold do_stop, curProc in Hs.
    assert (Hstep : forall p err, procs s !! proc s = Some p ->
              S (proc s) = length (procs s) ->
              let l' := alter (set_stopped (Some err)) (proc s) (procs s) in
              Forall proc_wf l' /\ started_in_turn l' /\
              l' !! proc s = Some (set_stopped (Some err) p) /\
              length l' = length (procs s)).
    { intros p err Hp Hl. split_and!.
      - apply proc_wf_alter; [|done]. by intros q Hq [H1 H2].
      - apply started_in_turn_alter_last; auto.
      - by rewrite list_lookup_alter_eq, Hp.
      - by rewrite length_alter. }
    destruct (pc s); try done;
      destruct (procs s !! proc s) as [p|] eqn:Hp; try done;
      destruct (Stop GOOS (fun _ => r) (cmd p)) as [eff err] eqn:HS;
      destruct (Hstep p err eq_refl Hpc) as (Hwf' & HA' & Hlk & Hlen);
      destruct err as [e|]; simplify_eq; simpl; rewrite ?Hlen;
      try by split_and!.
    + (* Stop failed: on to the rebuild, without waiting *)
      split_and!; [done|done|].
      eapply all_confirmed_last; [|exact Hlk| | |done].
      * by rewrite Hlen.
      * unfold started, Stop in *. simpl.
        destruct (Process (cmd p)); [done|]. by simplify_eq.
      * exists (Some e). split; [done|]. done.
    + split_and!; [done|done|done|]. eexists. split; [exact Hlk|done].
  - (* waitDone() *)
    destruct Hinv as (Hwf & HA & Hpc). unfold restart_inv, cur_last, curProc in *.
    simpl in Hs. unfold do_waitDone, curProc in Hs.
    assert (Hstep : forall p, procs s !! proc s = Some p ->
              S (proc s) = length (procs s) ->
              let l' := alter (set_done None) (proc s) (procs s) in
              Forall proc_wf l' /\ started_in_turn l' /\
              l' !! proc s = Some (set_done None p) /\
              length l' = length (procs s)).
    { intros p Hp Hl. split_and!.
      - apply proc_wf_alter; [|done]. intros q Hq [H1 H2].
        split; simpl; [|done]. intros Hw. by destruct (H1 Hw).
      - apply started_in_turn_alter_last; auto.
      - by rewrite list_lookup_alter_eq, Hp.
      - by rewrite length_alter. }
    destruct (pc s); try done;
      destruct (procs s !! proc s) as [p|] eqn:Hp; try done;
      destruct (done p) as [e|] eqn:Hd; try done; simplify_eq; simpl.
    + destruct (Hstep p eq_refl Hpc) as (Hwf' & HA' & _). by split_and!.
    + destruct Hpc as (Hl & q & Hq & Hst). simplify_eq.
      destruct (Hstep q eq_refl Hl) as (Hwf' & HA' & Hlk & Hlen).
      split_and!; [done|done|].
      destruct (Forall_lookup_1 _ _ _ _ Hwf Hp) as [_ H2]. destruct (H2 _ Hd) as (Hs1 & Hs2 & Hs3).
      eapply all_confirmed_last; [|exact Hlk| | |done].
      * by rewrite Hlen.
      * done.
      * exists None. split; [done|]. intros _. by repeat split.
  - (* result.Rebuild() *)
    destruct Hinv as (Hwf & HA & Hpc). unfold restart_inv in *.
    simpl in Hs. repeat case_match; simplify_eq; simpl; by split_and!.
Qed.

Lemma restart_inv_init opts (r0 : BuildResult) : restart_inv (init opts r0).
Proof.
  unfold restart_inv, init; simpl. split_and!; [constructor| |done].
  intros i j p q _ Hp. by rewrite lookup_nil in Hp.
Qed.


(** C9, as the code has it: whenever two process values have both been
    started, Stop has been called on the earlier one, and when that call
    returned nil the loop has also received its exit status from [done].
    (When Stop returns an error the loop goes on to the rebuild and the next
    start without waiting.) *)
Theorem C9_started_after_stop_of_previous
  (opts : buildAndWatch) (GOOS : string) (r0 : BuildResult)
  (tr : list action) (s : state) (i j : nat) (p q : procState) :
  exec opts GOOS (init opts r0) tr = Some s ->
  (i < j)%nat -> procs s !! i = Some p -> procs s !! j = Some q ->
  started p -> started q ->
  exists r, stopped p = Some r /\ (r = None -> exit_observed p).
Proof.
  intros Hex Hij Hp Hq Hsp Hsq.
  apply (exec_invariant_state opts GOOS restart_inv) in Hex.
  - destruct Hex as (_ & HA & _). exact (HA i j p q Hij Hp Hq Hsp Hsq).
  - intros. by eapply restart_inv_step.
  - apply restart_inv_init.
Qed.

Lemma C9_witness :
  exec watchMode "linux" (init watchMode okResult)
    [CtlEnter; CtlCreate; CtlStart (StartOK 4242); RelayEvent; RelaySend;
     CtlSelRestart; Tick restartQuiet; CtlDrainDelay; CtlStop None;
     ProcExit 0 None; WaiterSend 0; CtlWaitDone; CtlRebuild okResult;
     CtlCreate; CtlStart (StartOK 4243)]
    ≫= (fun s => Some (cmd <$> procs s))
  = Some [{| Process := Some 4242 |}; {| Process := Some 4243 |}] /\
  exists r,
    stopped {| cmd := {| Process := Some 4242 |}; exited := Some None;
               waiter := false; done := None; stopped := Some None |}
    = Some r /\
    (r = None ->
     exit_observed {| cmd := {| Process := Some 4242 |}; exited := Some None;
                      waiter := false; done := None;
                      stopped := Some None |}).
Proof.
  split; [reflexivity|].
  destruct (exec watchMode "linux" (init watchMode okResult)
    [CtlEnter; CtlCreate; CtlStart (StartOK 4242); RelayEvent; RelaySend;
     CtlSelRestart; Tick restartQuiet; CtlDrainDelay; CtlStop None;
     ProcExit 0 None; WaiterSend 0; CtlWaitDone; CtlRebuild okResult;
     CtlCreate; CtlStart (StartOK 4243)]) as [s|] eqn:Hex;
    [|vm_compute in Hex; discriminate Hex].
  apply (C9_started_after_stop_of_previous watchMode "linux" okResult _ s
           0 1 _ {| cmd := {| Process := Some 4243 |}; exited := None;
                    waiter := true; done := None; stopped := None |} Hex).
  - lia.
  - vm_compute in Hex. injection Hex as <-. reflexivity.
  - vm_compute in Hex. injection Hex as <-. reflexivity.
  - discriminate.
  - discriminate.
Defined.

(** C9 as it is written fails: Stop returns an error, the loop does not wait
    for the exit of the first child and starts the second one while the first
    has not been seen to exit. *)
Lemma C9_counterexample :
  exec watchMode "linux" (init watchMode okResult)
    [CtlEnter; CtlCreate; CtlStart (StartOK 4242); RelayEvent; RelaySend;
     CtlSelRestart; Tick restartQuiet; CtlDrainDelay;
     CtlStop (Some (Errno "operation not permitted"));
     CtlRebuild okResult; CtlCreate; CtlStart (StartOK 4243)]
    ≫= (fun s => Some (procs s))
  = Some [{| cmd := {| Process := Some 4242 |}; exited := None;
             waiter := true; done := None;
             stopped := Some (Some (Errno "operation not permitted")) |};
          {| cmd := {| Process := Some 4243 |}; exited := None;
             waiter := true; done := None; stopped := None |}].
Proof. reflexivity. Qed.

(** ** Restart signals received within the quiet time make one cycle *)

Lemma restartQuiet_pos : 0 < restartQuiet.
Proof. reflexivity. Qed.

Lemma cycle_inv_step opts GOOS (last : option Z) (s s' : state) (a : action)
  (nstop nreb nstart : nat) :
  cycle_inv last s nstop nreb nstart ->
  step opts GOOS s a = Some s' ->
  (is_receive a = true -> forall t, last = Some t -> now s < t + restartQuiet) ->
  cycle_inv (if is_receive a then Some (now s) else last) s'
    (nstop + if is_stop a then 1 else 0)
    (nreb + if is_rebuild a then 1 else 0)
    (nstart + if is_start_call a then 1 else 0).
Proof.
  intros Hinv Hs Hrcv. pose proof restartQuiet_pos as HQ.
  step_inv Hs; unfold cycle_inv in *; simpl in *;
    repeat match goal with
    | H : pc ?s = _, H' : context [pc ?s] |- _ => rewrite H in H'
    | H : pc ?s = _ |- context [pc ?s] => rewrite H
    end;
    try match goal with
    | |- context [match pc ?s with _ => _ end] => destruct (pc s) eqn:?
    end;
    destruct last as [t0|];
    repeat match goal with
    | H : forall t, Some ?x = Some t -> _ |- _ => specialize (H _ eq_refl)
    | H : true = true -> _ |- _ => specialize (H eq_refl)
    | H : _ /\ _ |- _ => destruct H
    end;
    try done;
    try match goal with
    | H : waitForChange ?s = _ |- _ =>
        rewrite H in *; simpl in *; try rewrite andb_false_r in *
    end;
    simplify_eq;
    try match goal with
    | |- context [hasErrors ?r] => destruct (hasErrors r) eqn:?
    end;
    simpl in *; simplify_eq;
    try (split_and!; first [done | lia | congruence]).
  all: destruct (waitForChange s); simpl in *; by split_and!.
Qed.

Lemma cycle_inv_exec opts GOOS (tr : list action) :
  forall (last : option Z) (s s' : state) (nstop nreb nstart : nat),
  cycle_inv last s nstop nreb nstart ->
  exec opts GOOS s tr = Some s' ->
  within_quiet (option_list last ++ times opts GOOS is_receive s tr) ->
  exists last',
    cycle_inv last' s' (nstop + count is_stop tr) (nreb + count is_rebuild tr)
      (nstart + count is_start_call tr) /\
    (last' = None -> last = None /\ count is_receive tr = 0%nat).
Proof.
  induction tr as [|a tr IH]; intros last s s' nstop nreb nstart Hinv Hex Hq.
  - simpl in Hex. simplify_eq. exists last. unfold count; simpl.
    rewrite !Nat.add_0_r. done.
  - rewrite exec_cons in Hex. cbn [times] in Hq.
    destruct (step opts GOOS s a) as [s1|] eqn:Hs; [|done].
    cbn [mbind option_bind] in Hex.
    assert (Hrcv : is_receive a = true ->
                   forall t, last = Some t -> now s < t + restartQuiet).
    { intros Ha t ->. rewrite Ha in Hq. simpl in Hq. by destruct Hq. }
    assert (Hq1 : within_quiet
                    (option_list (if is_receive a then Some (now s) else last)
                     ++ times opts GOOS is_receive s1 tr)).
    { destruct (is_receive a); [|done].
      destruct last as [t|]; simpl in Hq |- *; [by destruct Hq|done]. }
    pose proof (cycle_inv_step opts GOOS last s s1 a _ _ _ Hinv Hs Hrcv) as H1.
    destruct (IH _ _ _ _ _ _ H1 Hex Hq1) as (last' & Hinv' & Hnone).
    exists last'. rewrite !count_cons. split.
    + by rewrite !Nat.add_assoc.
    + intros Hl. destruct (Hnone Hl) as [Hl1 ->].
      destruct (is_receive a); [done|]. done.
Qed.

(** The signals after the first, each received by the drain loop. *)
Lemma drain_run opts GOOS (f : action -> bool) (pid : Z) (r : BuildResult)
  (tl : list action) (gaps : list Z) :
  f = is_event \/ f = is_receive ->
  forall t,
  Forall (fun g => 0 < g < restartQuiet) gaps ->
  exec opts GOOS (draining pid t r)
    (flat_map (fun g => [Tick g; RelayEvent; RelaySend; CtlDrainRestart]) gaps
     ++ tl)
  = exec opts GOOS (draining pid (t + sum_gaps gaps) r) tl /\
  (within_quiet (t + sum_gaps gaps ::
                 times opts GOOS f (draining pid (t + sum_gaps gaps) r) tl) ->
   within_quiet (t ::
                 times opts GOOS f (draining pid t r)
                   (flat_map
                      (fun g => [Tick g; RelayEvent; RelaySend; CtlDrainRestart])
                      gaps ++ tl))).
Proof.
  intros Hf. induction gaps as [|g gaps IH]; intros t Hg.
  - simpl. by rewrite Z.add_0_r.
  - apply Forall_cons in Hg as [[Hg0 HgQ] Hg].
    destruct (IH (t + g) Hg) as [IHe IHq].
    replace (t + sum_gaps (g :: gaps)) with (t + g + sum_gaps gaps)
      by (unfold sum_gaps; simpl; lia).
    cbn [flat_map app exec times step].
    destruct (decide (0 < g)) as [_|Hn]; [|done].
    cbn [exec times step side set_now draining set_side restart set_restart
         pc set_pc now].
    destruct (decide (0 < restartCap)%nat) as [_|Hn];
      [|destruct Hn; unfold restartCap; lia].
    cbn [exec times step side set_now draining set_side restart set_restart
         pc set_pc now].
    split; [exact IHe|].
    intros Hq. specialize (IHq Hq).
    destruct Hf as [-> | ->]; simpl; (split; [lia|exact IHq]).
Qed.

Lemma count_app (f : action -> bool) (tr1 tr2 : list action) :
  count f (tr1 ++ tr2) = (count f tr1 + count f tr2)%nat.
Proof. unfold count. by rewrite filter_app, length_app. Qed.

Lemma count_burst_gaps (gaps : list Z) :
  let tr := flat_map (fun g => [Tick g; RelayEvent; RelaySend; CtlDrainRestart])
              gaps in
  count is_event tr = length gaps /\ count is_stop tr = 0%nat /\
  count is_rebuild tr = 0%nat /\ count is_start tr = 0%nat.
Proof.
  induction gaps as [|g gaps IH]; simpl; [done|].
  destruct IH as (IH1 & IH2 & IH3 & IH4).
  rewrite !count_cons; simpl. rewrite IH1, IH2, IH3, IH4. done.
Qed.

Lemma times_none opts GOOS (f : action -> bool) (l : list action) :
  Forall (fun a => f a = false) l ->
  forall s, times opts GOOS f s l = [].
Proof.
  induction 1 as [|a l Ha _ IH]; intros s; [done|].
  simpl. destruct (step opts GOOS s a); [|done]. by rewrite Ha, IH.
Qed.

(** The time-out of the drain loop and the cycle that follows. *)
Lemma restart_cycle_run opts GOOS (f : action -> bool) (pid pid' : Z)
  (r r' : BuildResult) (t : Z) (st : goerror) :
  f = is_event \/ f = is_receive ->
  hasErrors r' = false ->
  (exists s',
     exec opts GOOS (draining pid t r) (restart_cycle 0 st r' pid') = Some s' /\
     pc s' = CSelect /\
     cmd <$> procs s' = [{| Process := Some pid |}; {| Process := Some pid' |}]) /\
  times opts GOOS f (draining pid t r) (restart_cycle 0 st r' pid') = [].
Proof.
  intros Hf Hr'. pose proof restartQuiet_pos as HQ.
  destruct r' as [[|e errs]]; [|discriminate Hr'].
  assert (H1 : exec opts GOOS (draining pid t r)
                 [Tick restartQuiet; CtlDrainDelay]
               = Some (set_pc CRestartStop
                         (set_now (t + restartQuiet) (draining pid t r)))).
  { cbn [exec step]. destruct (decide (0 < restartQuiet)) as [_|Hn]; [|done].
    cbn [pc set_now draining now].
    case_decide as Hd; [reflexivity|]. destruct Hd. lia. }
  assert (H2 : exists eff,
             step opts GOOS
               (set_pc CRestartStop
                  (set_now (t + restartQuiet) (draining pid t r)))
               (CtlStop None)
             = Some (set_pc CRestartWait
                       (set_oslog eff
                          (updProc 0 (set_stopped (Some None))
                             (set_pc CRestartStop
                                (set_now (t + restartQuiet)
                                   (draining pid t r))))))).
  { cbn [step pc set_pc]. unfold do_stop, curProc, Stop.
    cbn [procs proc lookup list_lookup cmd Process draining set_pc set_now].
    destruct (isWindows GOOS); eexists; reflexivity. }
  destruct H2 as [eff H2].
  split.
  - change (restart_cycle 0 st {| Errors := [] |} pid') with
      ([Tick restartQuiet; CtlDrainDelay] ++ CtlStop None ::
       [ProcExit 0 st; WaiterSend 0; CtlWaitDone;
        CtlRebuild {| Errors := [] |}; CtlCreate; CtlStart (StartOK pid')]).
    rewrite exec_app, H1. cbn [mbind option_bind].
    rewrite exec_cons, H2. cbn [mbind option_bind].
    generalize (t + restartQuiet). intros t1.
    eexists. split; [vm_compute; reflexivity|]. by split.
  - apply times_none. destruct Hf as [-> | ->]; repeat constructor.
Qed.

Lemma count_drain_receive (gaps : list Z) :
  let tr := flat_map (fun g => [Tick g; RelayEvent; RelaySend; CtlDrainRestart])
              gaps in
  count is_receive tr = length gaps /\ count is_start_call tr = 0%nat.
Proof.
  induction gaps as [|g gaps IH]; simpl; [done|].
  destruct IH as (IH1 & IH2).
  rewrite !count_cons; simpl. rewrite IH1, IH2. done.
Qed.

Lemma burst_run opts GOOS (f : action -> bool) (pid pid' t : Z)
  (r r' : BuildResult) (st : goerror) (gaps : list Z) :
  f = is_event \/ f = is_receive ->
  Forall (fun g => 0 < g < restartQuiet) gaps ->
  hasErrors r' = false ->
  let tr := burst_events gaps ++ restart_cycle 0 st r' pid' in
  (exists s',
     exec opts GOOS (running pid t r) tr = Some s' /\ pc s' = CSelect /\
     cmd <$> procs s' = [{| Process := Some pid |}; {| Process := Some pid' |}]) /\
  within_quiet (times opts GOOS f (running pid t r) tr).
Proof.
  intros Hf Hgaps Hr' tr. unfold tr, burst_events. rewrite <- app_assoc.
  destruct (restart_cycle_run opts GOOS f pid pid' r r' (t + sum_gaps gaps) st
              Hf Hr') as [(s' & Hex & Hpc & Hps) Hno].
  destruct (drain_run opts GOOS f pid r (restart_cycle 0 st r' pid') gaps Hf t
              Hgaps) as [He Hq].
  split.
  - exists s'. split; [|done].
    rewrite exec_app.
    replace (exec opts GOOS (running pid t r)
               [RelayEvent; RelaySend; CtlSelRestart])
      with (Some (draining pid t r)) by reflexivity.
    cbn [mbind option_bind]. by rewrite He.
  - assert (Ht : times opts GOOS f (running pid t r)
                   ([RelayEvent; RelaySend; CtlSelRestart] ++
                    flat_map
                      (fun g => [Tick g; RelayEvent; RelaySend; CtlDrainRestart])
                      gaps ++ restart_cycle 0 st r' pid')
                 = t :: times opts GOOS f (draining pid t r)
                          (flat_map
                             (fun g =>
                                [Tick g; RelayEvent; RelaySend; CtlDrainRestart])
                             gaps ++ restart_cycle 0 st r' pid')).
    { destruct Hf as [-> | ->]; reflexivity. }
    rewrite Ht. apply Hq. rewrite Hno. exact I.
Qed.

(** C8, as the code has it.  The quiet time of 50 ms is counted by the loop
    from the moment it receives a restart signal.  For a loop that is in its
    select: along every schedule in which each signal is received less than
    the quiet time after the one before it, there is at most one rebuild and
    at most one call of Start; and when such a schedule, with at least one
    signal received, has brought the loop back to its select, there has been
    exactly one call of Stop, one rebuild, and one call of Start (none if
    the rebuild has errors).  A burst of notifications that come less than
    the quiet time apart and are passed on and received at once is such a
    schedule: with the cycle that follows the time-out it can happen, it
    brings the loop back to its select with a second process, and it has as
    many notifications and receives as the burst and one Stop, one rebuild and
    one start. *)
Theorem C8_burst_makes_one_restart_cycle
  (opts : buildAndWatch) (GOOS : string) :
  restartQuiet = 50 * Millisecond /\
  (forall (s0 s' : state) (tr : list action),
     pc s0 = CSelect ->
     exec opts GOOS s0 tr = Some s' ->
     within_quiet (times opts GOOS is_receive s0 tr) ->
     (count is_rebuild tr <= 1)%nat /\ (count is_start_call tr <= 1)%nat /\
     (pc s' = CSelect -> (1 <= count is_receive tr)%nat ->
      count is_stop tr = 1%nat /\ count is_rebuild tr = 1%nat /\
      count is_start_call tr = if hasErrors (result s') then 0%nat else 1%nat)) /\
  (forall (pid pid' t : Z) (r r' : BuildResult) (st : goerror)
     (gaps : list Z),
     Forall (fun g => 0 < g < restartQuiet) gaps ->
     hasErrors r' = false ->
     let tr := burst_events gaps ++ restart_cycle 0 st r' pid' in
     (exists s',
        exec opts GOOS (running pid t r) tr = Some s' /\ pc s' = CSelect /\
        cmd <$> procs s' =
          [{| Process := Some pid |}; {| Process := Some pid' |}]) /\
     within_quiet (times opts GOOS is_event (running pid t r) tr) /\
     within_quiet (times opts GOOS is_receive (running pid t r) tr) /\
     count is_event tr = S (length gaps) /\
     count is_receive tr = S (length gaps) /\
     count is_stop tr = 1%nat /\ count is_rebuild tr = 1%nat /\
     count is_start_call tr = 1%nat).
Proof.
  split; [done|]. split.
  - intros s0 s' tr Hpc Hex Hq.
    destruct (cycle_inv_exec opts GOOS tr None s0 s' 0 0 0) as (last' & Hinv & Hl);
      [by unfold cycle_inv; rewrite Hpc|done|done|].
    simpl in Hinv. unfold cycle_inv in Hinv. split_and!.
    + destruct last'; destruct (pc s'); try done;
        destruct Hinv as (? & ? & ?); lia.
    + destruct last'; destruct (pc s'); try done;
        repeat match goal with
        | H : _ /\ _ |- _ => destruct H
        | H : context [if ?b then _ else _] |- _ => destruct b
        end; lia.
    + intros Hpc' Hn. destruct last' as [t1|].
      * rewrite Hpc' in Hinv. destruct Hinv as (_ & ? & ? & ?). done.
      * destruct (Hl eq_refl) as [_ H0]. lia.
  - intros pid pid' t r r' st gaps Hgaps Hr' tr.
    destruct (burst_run opts GOOS is_event pid pid' t r r' st gaps
                (or_introl eq_refl) Hgaps Hr') as [Hrun Hqe].
    destruct (burst_run opts GOOS is_receive pid pid' t r r' st gaps
                (or_intror eq_refl) Hgaps Hr') as [_ Hqr].
    split; [exact Hrun|]. split; [exact Hqe|]. split; [exact Hqr|].
    unfold tr, burst_events. rewrite !count_app.
    destruct (count_burst_gaps gaps) as (-> & -> & -> & _).
    destruct (count_drain_receive gaps) as (-> & ->). done.
Qed.

Lemma C8_witness :
  (count is_rebuild
     (burst_events [10 * Millisecond; 10 * Millisecond] ++
      restart_cycle 0 None okResult 4243) = 1%nat /\
   count is_start_call
     (burst_events [10 * Millisecond; 10 * Millisecond] ++
      restart_cycle 0 None okResult 4243) = 1%nat) /\
  count is_event
    (burst_events [10 * Millisecond; 10 * Millisecond] ++
     restart_cycle 0 None okResult 4243) = 3%nat /\
  exec watchMode "linux" (running 4242 0 okResult)
    (burst_events [10 * Millisecond; 10 * Millisecond] ++
     restart_cycle 0 None okResult 4243)
    ≫= (fun s => Some (pc s, cmd <$> procs s, now s))
  = Some (CSelect, [{| Process := Some 4242 |}; {| Process := Some 4243 |}],
          70 * Millisecond).
Proof.
  assert (Hg : Forall (fun g => 0 < g < restartQuiet)
                 [10 * Millisecond; 10 * Millisecond]).
  { repeat (apply Forall_cons; split; [vm_compute; by split|]).
    apply Forall_nil_2. }
  destruct (C8_burst_makes_one_restart_cycle watchMode "linux")
    as (_ & Hall & Hone).
  destruct (Hone 4242 4243 0 okResult okResult None
              [10 * Millisecond; 10 * Millisecond] Hg eq_refl)
    as ((s' & Hex & Hpc & _) & _ & Hq & He & Hr & _).
  destruct (Hall (running 4242 0 okResult) s' _ eq_refl Hex Hq)
    as (_ & _ & Hexact).
  destruct (Hexact Hpc) as (_ & Hreb & Hst).
  { rewrite Hr. simpl. lia. }
  split; [split; [exact Hreb|]|].
  - rewrite Hst. vm_compute in Hex. injection Hex as <-. reflexivity.
  - split; [exact He|]. vm_compute. reflexivity.
Defined.

(** C8 as it is written fails.  Two notifications come 49 ms apart; the relay
    passes the second one on 1 ms later, when the quiet time of the first
    has run out and the loop has left its drain select: there are two
    cycles, and three processes have been started in all. *)
Lemma C8_counterexample :
  let tr :=
    [RelayEvent; RelaySend; CtlSelRestart;
     Tick (49 * Millisecond); RelayEvent; Tick (1 * Millisecond);
     CtlDrainDelay; RelaySend;
     CtlStop None; ProcExit 0 None; WaiterSend 0; CtlWaitDone;
     CtlRebuild okResult; CtlCreate; CtlStart (StartOK 4243);
     CtlSelRestart; Tick restartQuiet; CtlDrainDelay;
     CtlStop None; ProcExit 1 None; WaiterSend 1; CtlWaitDone;
     CtlRebuild okResult; CtlCreate; CtlStart (StartOK 4244)] in
  times watchMode "linux" is_event (running 4242 0 okResult) tr
    = [0; 49 * Millisecond] /\
  within_quiet [0; 49 * Millisecond] /\
  times watchMode "linux" is_receive (running 4242 0 okResult) tr
    = [0; 50 * Millisecond] /\
  exec watchMode "linux" (running 4242 0 okResult) tr
    ≫= (fun s => Some (pc s, cmd <$> procs s))
    = Some (CSelect, [{| Process := Some 4242 |}; {| Process := Some 4243 |};
                      {| Process := Some 4244 |}]) /\
  count is_stop tr = 2%nat /\ count is_rebuild tr = 2%nat /\
  count is_start tr = 2%nat.
Proof.
  intros tr. split; [vm_compute; reflexivity|].
  split; [split; [reflexivity|exact I]|].
  split; [vm_compute; reflexivity|].
  split; [vm_compute; reflexivity|]. by split_and!.
Qed.


(** * Further properties of the supervisor *)

(** ** The abort channel *)

(** [close(abort)] is executed at most once: whenever a goroutine is about
    to close the channel, it is still open (closing a closed channel would
    panic). *)
Theorem abort_closed_at_most_once
  (opts : buildAndWatch) (GOOS : string) (r0 : BuildResult)
  (tr : list action) (s s' : state) (a : action) :
  exec opts GOOS (init opts r0) tr = Some s ->
  closes_abort a = true -> step opts GOOS s a = Some s' ->
  abort s = false /\ abort s' = true.
Proof.
  intros Hex Ha Hs.
  apply (exec_invariant_state opts GOOS abort_once_inv) in Hex.
  - destruct (abort_once_inv_step _ _ _ _ _ Hex Hs) as [H _].
    split; [by apply H|].
    destruct a; try done; step_inv Hs; try done.
    destruct m; simpl in *; simplify_eq.
  - intros s1 a1 s2 H1 H2. by destruct (abort_once_inv_step _ _ _ _ _ H1 H2).
  - unfold abort_once_inv, init; simpl. done.
Qed.

Lemma abort_closed_at_most_once_witness :
  closes_abort CtxClose = true /\
  exec oneShot "linux" (init oneShot okResult) [CtlEnter; Cancel; CtxClose]
    ≫= (fun s => Some (abort s)) = Some true.
Proof.
  split; [reflexivity|].
  rewrite (exec_app oneShot "linux" [CtlEnter; Cancel] [CtxClose]).
  destruct (exec oneShot "linux" (init oneShot okResult) [CtlEnter; Cancel])
    as [s|] eqn:Hex; [|vm_compute in Hex; discriminate Hex].
  cbn [mbind option_bind]. rewrite exec_cons.
  destruct (step oneShot "linux" s CtxClose) as [s'|] eqn:Hs.
  - cbn [mbind option_bind exec].
    by destruct (abort_closed_at_most_once oneShot "linux" okResult _ s s'
                   CtxClose Hex eq_refl Hs) as [_ ->].
  - vm_compute in Hex. injection Hex as <-. vm_compute in Hs. discriminate Hs.
Defined.

(** ** Counting along a schedule *)

(** Every call of [proc.Start()] but the first comes after a rebuild of its
    own: the loop calls Start at most once more than it has rebuilt. *)
Theorem starts_follow_rebuilds
  (opts : buildAndWatch) (GOOS : string) (r0 : BuildResult)
  (tr : list action) (s : state) :
  exec opts GOOS (init opts r0) tr = Some s ->
  (count is_start_call tr <= 1 + count is_rebuild tr)%nat.
Proof.
  intros Hex.
  apply (exec_potential opts GOOS is_start_call is_rebuild armed
           (fun _ => True)) in Hex; [|clear|done].
  - destruct Hex as [_ H]. change (armed (init opts r0)) with 1%nat in H. lia.
  - intros s1 a s2 _ Hs. split; [done|]. unfold armed.
    step_inv Hs; simpl;
      repeat match goal with
      | H : pc ?s = _ |- context [pc ?s] => rewrite H
      end;
      repeat match goal with
      | |- context [waitForChange ?s] => destruct (waitForChange s)
      | |- context [hasErrors ?r] => destruct (hasErrors r)
      | |- context [pc ?s] => destruct (pc s)
      end; simpl in *; try lia; try done.
Qed.

(** The loop never rebuilds without a notification: it has rebuilt at most as
    often as notifications have reached the relay. *)
Theorem rebuilds_need_notifications
  (opts : buildAndWatch) (GOOS : string) (r0 : BuildResult)
  (tr : list action) (s : state) :
  exec opts GOOS (init opts r0) tr = Some s ->
  (count is_rebuild tr + in_flight s <= count is_event tr)%nat.
Proof.
  intros Hex.
  apply (exec_potential opts GOOS is_rebuild is_event in_flight
           (fun _ => True)) in Hex; [|clear|done].
  - destruct Hex as [_ H].
    assert (in_flight (init opts r0) = 0%nat) as Hi.
    { unfold in_flight, init; simpl. by destruct (Watch opts). }
    rewrite Hi in H. lia.
  - intros s1 a s2 _ Hs. split; [done|]. unfold in_flight.
    step_inv Hs; simpl;
      repeat match goal with
      | H : pc ?s = _ |- context [pc ?s] => rewrite H
      | H : side ?s = _ |- context [side ?s] => rewrite H
      | H : restart ?s = _ |- context [restart ?s] => rewrite H
      end;
      repeat match goal with
      | |- context [match side ?s with _ => _ end] => destruct (side s)
      | |- context [match pc ?s with _ => _ end] => destruct (pc s)
      | |- context [if ?b then _ else _] => destruct b
      end; simpl in *; try lia; try done; try congruence.
Qed.

(** ** How the loop ends, and what it starts *)

Lemma watch_exit_inv_step opts GOOS (s s' : state) (a : action) :
  Watch opts = true ->
  watch_exit_inv s -> step opts GOOS s a = Some s' -> watch_exit_inv s'.
Proof.
  intros Hw [Hab Hnil] Hs. split; [|by eapply nil_results_inv_step].
  clear Hnil. unfold tearing_down in *.
  step_inv Hs; simpl;
    repeat match goal with
    | H : pc ?s = _ |- _ => rewrite H in Hab
    end;
    try (rewrite Hw in *; simpl in *; try rewrite andb_false_r in *);
    try done; try (intros; by auto).
Qed.

(** In watch mode [Run] returns only after abort has been closed, and then it
    returns nil: nothing else ends a watching supervisor (not a failed build,
    not a failed start, not the exit of the process). *)
Theorem watch_mode_returns_only_after_abort
  (opts : buildAndWatch) (GOOS : string) (r0 : BuildResult)
  (tr : list action) (s : state) (r : goerror) :
  Watch opts = true ->
  exec opts GOOS (init opts r0) tr = Some s ->
  Run_result opts s = Some r ->
  abort s = true /\ r = None.
Proof.
  intros Hw Hex Hr.
  apply (exec_invariant_state opts GOOS watch_exit_inv) in Hex.
  - destruct Hex as [Hab (Hg & _ & _)]. unfold Run_result in Hr.
    rewrite Hw in Hr. unfold tearing_down in Hab.
    destruct (pc s); try done. destruct (side s); try done.
    simplify_eq. split; [by apply Hab|done].
  - intros. by eapply watch_exit_inv_step.
  - split; [done|]. by apply nil_results_inv_init.
Qed.

Lemma start_guard_inv_step opts GOOS (s s' : state) (a : action) :
  start_guard_inv s -> step opts GOOS s a = Some s' -> start_guard_inv s'.
Proof.
  intros Hinv Hs. unfold start_guard_inv in *.
  step_inv Hs; simpl; try done; try (intros; by auto);
    repeat match goal with
    | H : pc ?s = _ |- _ => rewrite H in Hinv
    end; try (intros; by auto).
  intros _. by apply andb_true_iff in H0 as [?%negb_true_iff ?%negb_true_iff].
Qed.

(** A process is only started from a build without errors: whenever the loop
    calls [proc.Start()], the build result it holds has no errors (and it is
    not waiting for a change). *)
Theorem start_only_after_good_build
  (opts : buildAndWatch) (GOOS : string) (r0 : BuildResult)
  (tr : list action) (s s' : state) (r : startResult) :
  exec opts GOOS (init opts r0) tr = Some s ->
  step opts GOOS s (CtlStart r) = Some s' ->
  Errors (result s) = [] /\ waitForChange s = false.
Proof.
  intros Hex Hs.
  apply (exec_invariant_state opts GOOS start_guard_inv) in Hex.
  - assert (Hpc : pc s = CStart) by (step_inv Hs; done).
    destruct (Hex Hpc) as [He Hw]. split; [|done].
    unfold hasErrors in He. by destruct (Errors (result s)).
  - intros. by eapply start_guard_inv_step.
  - by intros ?.
Qed.

(** ** One-shot mode runs one process *)

Lemma oneshot_shape_step opts GOOS (s s' : state) (a : action) :
  Watch opts = false ->
  oneshot_shape s -> step opts GOOS s a = Some s' ->
  is_rebuild a = false /\ oneshot_shape s'.
Proof.
  intros Hw (Hr & Hsd & Hpc) Hs.
  destruct Hsd as [Hsd|Hsd];
    step_inv Hs; unfold oneshot_shape; simpl;
    rewrite ?length_alter, ?length_app;
    try (rewrite Hw in *; simpl in *);
    repeat match goal with
    | H : pc ?s = _ |- context [pc ?s] => rewrite H
    end;
    try congruence;
    try (split_and!; auto; simpl; try lia; try done;
         try (rewrite Hpc; simpl; lia); try (rewrite Hpc; done)).
Qed.

(** In one-shot mode the loop body runs once: at most one process value is
    ever created, nothing is ever queued in [restart], and nothing is ever
    rebuilt. *)
Theorem oneshot_runs_one_process
  (opts : buildAndWatch) (GOOS : string) (r0 : BuildResult)
  (tr : list action) (s : state) :
  Watch opts = false ->
  exec opts GOOS (init opts r0) tr = Some s ->
  (length (procs s) <= 1)%nat /\ restart s = 0%nat /\
  count is_rebuild tr = 0%nat.
Proof.
  intros Hw Hex.
  apply (exec_invariant opts GOOS oneshot_shape
           (fun a => is_rebuild a = false)) in Hex.
  - destruct Hex as [Htr (Hr & _ & Hpc)]. split_and!; [|done|by apply count_zero].
    destruct (pc s); try done; try lia; rewrite Hpc; simpl; lia.
  - intros. by eapply oneshot_shape_step.
  - unfold oneshot_shape, init; simpl. rewrite Hw. auto.
Qed.

(** ** Waiting for a change *)

Lemma curProc_updProc_ne (i : nat) (f : procState -> procState) (s : state) :
  i <> proc s -> curProc (updProc i f s) = curProc s.
Proof. intros Hne. unfold curProc, updProc; simpl. by rewrite list_lookup_alter_ne. Qed.

Lemma curProc_updProc_eq (f : procState -> procState) (s : state) :
  curProc (updProc (proc s) f s) = f <$> curProc s.
Proof. unfold curProc, updProc; simpl. by rewrite list_lookup_alter_eq. Qed.

Lemma idle_waiting_step opts GOOS (s s' : state) (a : action) :
  idle_waiting s -> step opts GOOS s a = Some s' ->
  is_rebuild a = false /\ is_start_call a = false /\ idle_waiting s'.
Proof.
  intros Hinv Hs. unfold idle_waiting in Hinv.
  destruct a; simpl; (split; [try done|split; [try done|]]);
    try (simpl in Hs; repeat case_match; simplify_eq;
         unfold idle_waiting, curProc in *; simpl;
         repeat match goal with
         | H : pc ?s = _ |- context [pc ?s] => rewrite H
         end; done).
  - (* the child of some process exits: not the one the loop holds *)
    simpl in Hs. destruct (procs s !! i) as [q|] eqn:Hq; [|done].
    destruct (Process (cmd q)) eqn:HP; [|done].
    destruct (exited q); [done|]. simplify_eq.
    assert (Hne : forall p, curProc s = Some p -> never_started p -> i <> proc s).
    { intros p Hp (Hn & _) ->. unfold curProc in Hp. congruence. }
    unfold idle_waiting. simpl.
    destruct (pc s); try done;
      destruct Hinv as (p & Hp & Hn); exists p;
      (split; [|done]);
      by rewrite (curProc_updProc_ne i _ s (Hne p Hp Hn)).
  - (* done <- proc.Wait(): not for the one the loop holds *)
    simpl in Hs. destruct (procs s !! i) as [q|] eqn:Hq; [|done].
    destruct (waiter q) eqn:HW; [|done].
    destruct (Wait q); [|done]. destruct (done q); [done|]. simplify_eq.
    assert (Hne : forall p, curProc s = Some p -> never_started p -> i <> proc s).
    { intros p Hp (_ & Hn & _) ->. unfold curProc in Hp. congruence. }
    unfold idle_waiting. simpl.
    destruct (pc s); try done;
      destruct Hinv as (p & Hp & Hn); exists p;
      (split; [|done]);
      by rewrite (curProc_updProc_ne i _ s (Hne p Hp Hn)).
  - (* lines 88-97: a fresh process value, and no start *)
    simpl in Hs. destruct (pc s); try done. simplify_eq.
    rewrite Hinv, andb_false_r. unfold idle_waiting, curProc; simpl.
    exists newProc. split; [|by repeat split].
    by rewrite lookup_app_r, Nat.sub_diag.
  - (* case err := <-done: nothing to receive *)
    simpl in Hs. destruct (pc s); try done.
    destruct Hinv as (p & Hp & (_ & _ & Hd & _)). rewrite Hp, Hd in Hs. done.
  - (* proc.Stop() on the process that was never started: nil *)
    simpl in Hs. unfold do_stop, Stop in Hs.
    destruct (pc s); try done;
      destruct Hinv as (p & Hp & (HP & HW & HD & HE));
      rewrite Hp, HP in Hs; simplify_eq;
      unfold idle_waiting; simpl;
      exists (set_stopped (Some None) p);
      (split; [unfold curProc in *; simpl;
               by rewrite list_lookup_alter_eq, Hp
              |by repeat split]).
  - (* waitDone(): blocked *)
    simpl in Hs. unfold do_waitDone in Hs.
    destruct (pc s); try done;
      destruct Hinv as (p & Hp & (_ & _ & Hd & _)); by rewrite Hp, Hd in Hs.
Qed.

(** In watch mode, once the process has exited on its own or has failed to
    start, the loop waits for a change with a process value that was never
    started, and from there it never rebuilds, never calls Start and never
    returns: the Stop it calls after a restart or an abort returns nil, and
    the [waitDone()] that follows has nothing to receive. *)
Theorem watch_mode_exit_or_start_failure_is_final
  (opts : buildAndWatch) (GOOS : string) (r0 : BuildResult)
  (tr tr2 : list action) (s s1 s2 : state) (a : action) :
  Watch opts = true ->
  exec opts GOOS (init opts r0) tr = Some s ->
  a = CtlSelDone \/ (exists e, a = CtlStart (StartErr e)) ->
  step opts GOOS s a = Some s1 ->
  exec opts GOOS s1 tr2 = Some s2 ->
  count is_rebuild tr2 = 0%nat /\ count is_start_call tr2 = 0%nat /\
  Run_result opts s2 = None.
Proof.
  intros Hw Hex Ha Hs Hex2.
  assert (Hidle : idle_waiting s1).
  { apply (exec_invariant_state opts GOOS restart_inv) in Hex;
      [|intros; by eapply restart_inv_step|apply restart_inv_init].
    destruct Hex as (_ & _ & Hpc). unfold idle_waiting.
    destruct Ha as [->|[e ->]]; simpl in Hs.
    - destruct (pc s); try done. destruct (curProc s); [|done].
      destruct (done p); [|done]. rewrite Hw in Hs. simpl in Hs.
      simplify_eq. done.
    - destruct (pc s); try done. rewrite Hw in Hs. simpl in Hs.
      simplify_eq. simpl. destruct Hpc as (_ & _ & p & Hp & Hn). eauto. }
  apply (exec_invariant opts GOOS idle_waiting
           (fun a => is_rebuild a = false /\ is_start_call a = false))
    in Hex2; [|intros ? ? ? H1 H2;
               by destruct (idle_waiting_step _ _ _ _ _ H1 H2) as (?&?&?)
             |done].
  destruct Hex2 as [Htr Hfin]. split_and!.
  - apply count_zero. eapply Forall_impl; [exact Htr|]. by intros ? [? ?].
  - apply count_zero. eapply Forall_impl; [exact Htr|]. by intros ? [? ?].
  - unfold Run_result, idle_waiting in *. by destruct (pc s2).
Qed.

Lemma watch_mode_exit_or_start_failure_is_final_witness :
  Watch watchMode = true /\
  exec watchMode "linux" (init watchMode okResult)
    ([CtlEnter; CtlCreate; CtlStart (StartOK 4242);
      ProcExit 0 (Some (ExitError 1)); WaiterSend 0] ++
     CtlSelDone ::
     [CtlCreate; RelayEvent; RelaySend; CtlSelRestart; Tick restartQuiet;
      CtlDrainDelay; CtlStop None])
    ≫= (fun s => Some (pc s, Run_result watchMode s))
  = Some (CRestartWait, None).
Proof.
  split; [reflexivity|].
  rewrite (exec_app watchMode "linux").
  destruct (exec watchMode "linux" (init watchMode okResult)
              [CtlEnter; CtlCreate; CtlStart (StartOK 4242);
               ProcExit 0 (Some (ExitError 1)); WaiterSend 0])
    as [s|] eqn:Hex; [|vm_compute in Hex; discriminate Hex].
  cbn [mbind option_bind]. rewrite exec_cons.
  destruct (step watchMode "linux" s CtlSelDone) as [s1|] eqn:Hs;
    [|vm_compute in Hex; injection Hex as <-; vm_compute in Hs;
      discriminate Hs].
  cbn [mbind option_bind].
  destruct (exec watchMode "linux" s1
              [CtlCreate; RelayEvent; RelaySend; CtlSelRestart;
               Tick restartQuiet; CtlDrainDelay; CtlStop None])
    as [s2|] eqn:Hex2;
    [|vm_compute in Hex; injection Hex as <-; vm_compute in Hs;
      injection Hs as <-; vm_compute in Hex2; discriminate Hex2].
  destruct (watch_mode_exit_or_start_failure_is_final watchMode "linux"
              okResult _ _ s s1 s2 CtlSelDone eq_refl Hex (or_introl eq_refl)
              Hs Hex2) as (_ & _ & Hr).
  cbn [mbind option_bind]. rewrite Hr.
  vm_compute in Hex; injection Hex as <-; vm_compute in Hs;
    injection Hs as <-; vm_compute in Hex2; injection Hex2 as <-.
  reflexivity.
Defined.

(** ** The goroutine of line 106 *)

(** [done] has room for the one value it will ever hold: when the child of a
    process has exited and its goroutine has not yet delivered, the send on
    [done] can happen at once, whether or not the loop will ever receive. *)
Theorem waiter_send_never_blocks
  (opts : buildAndWatch) (GOOS : string) (r0 : BuildResult)
  (tr : list action) (s : state) (i : nat) (p : procState) (st : goerror) :
  exec opts GOOS (init opts r0) tr = Some s ->
  procs s !! i = Some p -> waiter p = true -> exited p = Some st ->
  exists s', step opts GOOS s (WaiterSend i) = Some s' /\
    procs s' !! i = Some (set_waiter false (set_done (Some st) p)).
Proof.
  intros Hex Hp Hw He.
  apply (exec_invariant_state opts GOOS restart_inv) in Hex;
    [|intros; by eapply restart_inv_step|apply restart_inv_init].
  destruct Hex as (Hwf & _ & _).
  destruct (Forall_lookup_1 _ _ _ _ Hwf Hp) as [H1 _].
  destruct (H1 Hw) as [Hst Hd]. unfold started in Hst.
  simpl. rewrite Hp, Hw. unfold Wait.
  destruct (Process (cmd p)); [|done]. rewrite He, Hd.
  eexists. split; [done|]. simpl. by rewrite list_lookup_alter_eq, Hp.
Qed.

Lemma waiter_send_never_blocks_witness :
  exec watchMode "linux" (init watchMode okResult)
    [CtlEnter; CtlCreate; CtlStart (StartOK 4242); ProcExit 0 None;
     WaiterSend 0]
    ≫= (fun s => done <$> procs s !! 0%nat) = Some (Some None).
Proof.
  rewrite (exec_app watchMode "linux"
             [CtlEnter; CtlCreate; CtlStart (StartOK 4242); ProcExit 0 None]
             [WaiterSend 0]).
  destruct (exec watchMode "linux" (init watchMode okResult)
              [CtlEnter; CtlCreate; CtlStart (StartOK 4242); ProcExit 0 None])
    as [s|] eqn:Hex; [|vm_compute in Hex; discriminate Hex].
  destruct (waiter_send_never_blocks watchMode "linux" okResult _ s 0
              {| cmd := {| Process := Some 4242 |}; exited := Some None;
                 waiter := true; done := None; stopped := None |} None Hex)
    as (s' & Hs & Hp).
  - vm_compute in Hex. injection Hex as <-. reflexivity.
  - reflexivity.
  - reflexivity.
  - cbn [mbind option_bind]. rewrite exec_cons, Hs.
    cbn [mbind option_bind exec]. rewrite Hp. reflexivity.
Defined.

Lemma starts_follow_rebuilds_witness :
  (count is_start_call
     [CtlEnter; CtlCreate; CtlStart (StartOK 4242); RelayEvent; RelaySend;
      CtlSelRestart; Tick restartQuiet; CtlDrainDelay; CtlStop None;
      ProcExit 0 None; WaiterSend 0; CtlWaitDone; CtlRebuild okResult;
      CtlCreate; CtlStart (StartOK 4243)]
   <= 1 + count is_rebuild
     [CtlEnter; CtlCreate; CtlStart (StartOK 4242); RelayEvent; RelaySend;
      CtlSelRestart; Tick restartQuiet; CtlDrainDelay; CtlStop None;
      ProcExit 0 None; WaiterSend 0; CtlWaitDone; CtlRebuild okResult;
      CtlCreate; CtlStart (StartOK 4243)])%nat.
Proof.
  destruct (exec watchMode "linux" (init watchMode okResult)
     [CtlEnter; CtlCreate; CtlStart (StartOK 4242); RelayEvent; RelaySend;
      CtlSelRestart; Tick restartQuiet; CtlDrainDelay; CtlStop None;
      ProcExit 0 None; WaiterSend 0; CtlWaitDone; CtlRebuild okResult;
      CtlCreate; CtlStart (StartOK 4243)]) as [s|] eqn:Hex;
    [|vm_compute in Hex; discriminate Hex].
  exact (starts_follow_rebuilds watchMode "linux" okResult _ s Hex).
Defined.

Lemma rebuilds_need_notifications_witness :
  (count is_rebuild
     [CtlEnter; CtlCreate; CtlStart (StartOK 4242); RelayEvent; RelaySend;
      CtlSelRestart; RelayEvent; RelaySend; CtlDrainRestart;
      Tick restartQuiet; CtlDrainDelay;
      CtlStop (Some (Errno "no such process")); CtlRebuild okResult]
   <= count is_event
     [CtlEnter; CtlCreate; CtlStart (StartOK 4242); RelayEvent; RelaySend;
      CtlSelRestart; RelayEvent; RelaySend; CtlDrainRestart;
      Tick restartQuiet; CtlDrainDelay;
      CtlStop (Some (Errno "no such process")); CtlRebuild okResult])%nat.
Proof.
  destruct (exec watchMode "linux" (init watchMode okResult)
     [CtlEnter; CtlCreate; CtlStart (StartOK 4242); RelayEvent; RelaySend;
      CtlSelRestart; RelayEvent; RelaySend; CtlDrainRestart;
      Tick restartQuiet; CtlDrainDelay;
      CtlStop (Some (Errno "no such process")); CtlRebuild okResult])
    as [s|] eqn:Hex; [|vm_compute in Hex; discriminate Hex].
  pose proof (rebuilds_need_notifications watchMode "linux" okResult _ s Hex).
  lia.
Defined.

Lemma watch_mode_returns_only_after_abort_witness :
  Watch watchMode = true /\
  exec watchMode "linux" (init watchMode okResult)
    [CtlEnter; CtlCreate; CtlStart (StartOK 4242); Cancel; RelayCtxDone;
     CtlSelAbort; CtlStop (Some (Errno "no such process"))]
    ≫= (fun s => Some (Run_result watchMode s, abort s))
  = Some (Some None, true).
Proof.
  split; [reflexivity|].
  destruct (exec watchMode "linux" (init watchMode okResult)
    [CtlEnter; CtlCreate; CtlStart (StartOK 4242); Cancel; RelayCtxDone;
     CtlSelAbort; CtlStop (Some (Errno "no such process"))])
    as [s|] eqn:Hex; [|vm_compute in Hex; discriminate Hex].
  cbn [mbind option_bind].
  destruct (Run_result watchMode s) as [r|] eqn:Hr;
    [|vm_compute in Hex; injection Hex as <-; vm_compute in Hr;
      discriminate Hr].
  by destruct (watch_mode_returns_only_after_abort watchMode "linux" okResult
                 _ s r eq_refl Hex Hr) as [-> ->].
Defined.

Lemma start_only_after_good_build_witness :
  exec watchMode "linux" (init watchMode okResult) [CtlEnter; CtlCreate]
    ≫= (fun s => Some (Errors (result s), waitForChange s))
  = Some ([], false).
Proof.
  destruct (exec watchMode "linux" (init watchMode okResult)
              [CtlEnter; CtlCreate]) as [s|] eqn:Hex;
    [|vm_compute in Hex; discriminate Hex].
  cbn [mbind option_bind].
  destruct (step watchMode "linux" s (CtlStart (StartOK 4242))) as [s'|] eqn:Hs;
    [|vm_compute in Hex; injection Hex as <-; vm_compute in Hs;
      discriminate Hs].
  by destruct (start_only_after_good_build watchMode "linux" okResult _ s s'
                 _ Hex Hs) as [-> ->].
Defined.

Lemma oneshot_runs_one_process_witness :
  Watch oneShot = false /\
  exec oneShot "linux" (init oneShot okResult)
    [CtlEnter; CtlCreate; CtlStart (StartOK 4242); ProcExit 0 None;
     WaiterSend 0; CtlSelDone]
    ≫= (fun s => Some (restart s)) = Some 0%nat.
Proof.
  split; [reflexivity|].
  destruct (exec oneShot "linux" (init oneShot okResult)
    [CtlEnter; CtlCreate; CtlStart (StartOK 4242); ProcExit 0 None;
     WaiterSend 0; CtlSelDone]) as [s|] eqn:Hex;
    [|vm_compute in Hex; discriminate Hex].
  cbn [mbind option_bind].
  by destruct (oneshot_runs_one_process oneShot "linux" okResult _ s
                 eq_refl Hex) as (_ & -> & _).
Defined.

(** ** The abort case with a running process *)

(** When abort is closed while the loop waits in its select with a running
    process, the loop can take the abort case and call Stop.  If Stop returns
    an error the loop returns nil at once.  If Stop returns nil the loop is
    blocked in [waitDone()] until the child has exited and its goroutine has
    delivered the status; then it returns nil. *)
Theorem abort_stops_waits_and_returns
  (opts : buildAndWatch) (GOOS : string) (s : state) (p : procState)
  (pid : Z) :
  pc s = CSelect -> abort s = true -> curProc s = Some p ->
  Process (cmd p) = Some pid -> exited p = None -> waiter p = true ->
  done p = None ->
  (forall e,
     pc <$> exec opts GOOS s [CtlSelAbort; CtlStop (Some e)]
     = Some (CReturned None)) /\
  (exists s1, exec opts GOOS s [CtlSelAbort; CtlStop None] = Some s1 /\
     pc s1 = CAbortWait /\ step opts GOOS s1 CtlWaitDone = None /\
     forall st,
       pc <$> exec opts GOOS s1
                [ProcExit (proc s) st; WaiterSend (proc s); CtlWaitDone]
       = Some (CReturned None)).
Proof.
  intros Hpc Hab Hp HP He Hw Hd. unfold curProc in Hp.
  assert (H1 : step opts GOOS s CtlSelAbort = Some (set_pc CAbortStop s)).
  { simpl. by rewrite Hpc, Hab. }
  split.
  - intros e. rewrite exec_cons, H1. cbn [mbind option_bind].
    rewrite exec_cons. cbn [step pc set_pc]. unfold do_stop, curProc, Stop.
    cbn [procs proc set_pc]. rewrite Hp, HP.
    by destruct (isWindows GOOS).
  - assert (H2 : exists s1,
              step opts GOOS (set_pc CAbortStop s) (CtlStop None) = Some s1 /\
              pc s1 = CAbortWait /\ proc s1 = proc s /\
              procs s1 = alter (set_stopped (Some None)) (proc s) (procs s)).
    { cbn [step pc set_pc]. unfold do_stop, curProc, Stop.
      cbn [procs proc set_pc]. rewrite Hp, HP.
      destruct (isWindows GOOS); eexists; (split; [reflexivity|done]). }
    destruct H2 as (s1 & Hs1 & Hpc1 & Hpr1 & Hps1).
    assert (Hp1 : procs s1 !! proc s = Some (set_stopped (Some None) p)).
    { by rewrite Hps1, list_lookup_alter_eq, Hp. }
    exists s1. split_and!.
    + rewrite exec_cons, H1. cbn [mbind option_bind].
      rewrite exec_cons, Hs1. done.
    + done.
    + cbn [step]. rewrite Hpc1. unfold do_waitDone, curProc.
      rewrite Hpr1, Hp1. cbn [done set_stopped]. by rewrite Hd.
    + intros st. rewrite exec_cons. cbn [step]. rewrite Hp1.
      cbn [Process cmd exited set_stopped]. rewrite HP, He.
      cbn [mbind option_bind]. rewrite exec_cons. cbn [step].
      unfold updProc at 1. cbn [procs set_procs].
      rewrite list_lookup_alter_eq, Hp1. cbn [fmap option_fmap option_map].
      unfold Wait. cbn [waiter cmd Process exited done set_exited set_stopped].
      rewrite Hw, HP, Hd. cbn [mbind option_bind].
      rewrite exec_cons. cbn [step pc updProc set_procs]. rewrite Hpc1.
      unfold do_waitDone, curProc, updProc. cbn [procs proc set_procs].
      rewrite Hpr1, !list_lookup_alter_eq, Hp1.
      cbn [fmap option_fmap option_map done set_waiter set_done].
      done.
Qed.

Lemma abort_stops_waits_and_returns_witness :
  pc <$> exec watchMode "linux" (set_abort true (running 4242 0 okResult))
           [CtlSelAbort; CtlStop (Some (Errno "no such process"))]
  = Some (CReturned None).
Proof.
  exact (proj1 (abort_stops_waits_and_returns watchMode "linux"
                  (set_abort true (running 4242 0 okResult)) _ 4242
                  eq_refl eq_refl eq_refl eq_refl eq_refl eq_refl eq_refl)
           (Errno "no such process")).
Defined.

(** ** The set-up of [Run] as a whole *)

Section SetupMore.
Variable IsAbs : string -> bool.
Variable Join : string -> string -> string.
Variable Quote : string -> string.
Variable Add : string -> goerror.
Variable opts : buildAndWatch.

Lemma watchEntryPoints_calls (eps : list string) :
  let r := watchEntryPoints IsAbs Join Quote Add opts eps in
  ~ In XBuild r.1 /\ ~ In XNewWatcher r.1 /\
  (r.2 = None <->
   Forall (fun p => Add (absEntrypoint IsAbs Join opts p) = None) eps) /\
  (r.2 = None -> r.1 = XAdd <$> (absEntrypoint IsAbs Join opts <$> eps)).
Proof.
  induction eps as [|p eps IH]; simpl.
  - split_and!; auto. split; auto.
  - destruct (Add (absEntrypoint IsAbs Join opts p)) as [err|] eqn:HA; simpl.
    + split_and!; try done.
      * intros [?|[]]; done.
      * intros [?|[]]; done.
      * split; [done|]. intros H. apply Forall_cons in H as [H _]. congruence.
    + destruct (watchEntryPoints IsAbs Join Quote Add opts eps) as [calls r].
      simpl in *. destruct IH as (H1 & H2 & H3 & H4). split_and!.
      * intros [?|?]; [done|auto].
      * intros [?|?]; [done|auto].
      * rewrite H3. split; [intros; by apply Forall_cons|].
        intros H. by apply Forall_cons in H as [_ H].
      * intros Hr. by rewrite (H4 Hr).
Qed.
End SetupMore.

(** The first build is made exactly when the set-up succeeds, and then it is
    the last thing the set-up does, after the watcher has been given every
    entry point, each once and in order (absolute paths as they are, the
    others joined to the root directory).  Without watching, nothing but the
    build is called.  When the watcher cannot be made, nothing else is
    called. *)
Theorem setup_builds_last_and_only_on_success
  (IsAbs : string -> bool) (Join : string -> string -> string)
  (Quote : string -> string) (NewWatcher : goerror) (Add : string -> goerror)
  (Build : BuildResult) (opts : buildAndWatch) :
  let r := Run_setup IsAbs Join Quote NewWatcher Add Build opts in
  (In XBuild r.1 <-> r.2 = Running (init opts Build)) /\
  (forall s, r.2 = Running s ->
     r.1 = (if Watch opts
            then XNewWatcher ::
                   (XAdd <$> (absEntrypoint IsAbs Join opts <$> EntryPoints opts))
            else []) ++ [XBuild]) /\
  (forall e, r.2 = Fatal e -> NewWatcher = Some e /\ r.1 = [XNewWatcher]).
Proof.
  unfold Run_setup. destruct (Watch opts); simpl.
  - destruct NewWatcher as [e0|]; simpl.
    + split_and!; [split; [by intros [?|[]]|done]|done|].
      intros e [= ->]. done.
    + pose proof (watchEntryPoints_calls IsAbs Join Quote Add opts
                    (EntryPoints opts)) as (H1 & H2 & H3 & H4).
      destruct (watchEntryPoints IsAbs Join Quote Add opts (EntryPoints opts))
        as [calls [err|]]; simpl in *.
      * split_and!; [split; [|done]|done|done].
        intros [?|?]; [done|]. by destruct H1.
      * split_and!; [split; [done|]|intros s _; by rewrite H4|done].
        intros _. right. apply in_app_iff. right. by left.
  - split_and!; [split; [done|]|done|done]. intros _. by left.
Qed.

(** * Properties of the package command *)

Lemma onResolve_fold_lookup (repo : Packaging.Repository)
    (resolved : list Packaging.OnResolveArgs) (d0 : gmap string string)
    (m v : string) :
  (forall k w, d0 !! k = Some w -> Packaging.Dependencies repo !! k = Some w) ->
  foldl (Packaging.onResolve repo) d0 resolved !! m = Some v <->
  d0 !! m = Some v \/
  (Packaging.Dependencies repo !! m = Some v /\
   exists a, a ∈ resolved /\ Packaging.Path a = m /\
             Packaging.isFileFromDeps (Packaging.Importer a) = false).
Proof.
  revert d0. induction resolved as [|a l IH]; intros d0 Hsub; simpl.
  - split; [by left|]. intros [H|(_ & a & Ha & _)]; [done|].
    by apply elem_of_nil in Ha.
  - rewrite IH.
    + unfold Packaging.onResolve.
      destruct (Packaging.isFileFromDeps (Packaging.Importer a)) eqn:Hdep.
      * split; intros [H|(Hd & b & Hb & Hp & Hi)]; auto.
        -- right. split; [done|]. exists b. split; [by right|done].
        -- right. split; [done|]. exists b. split; [|done].
           apply elem_of_cons in Hb as [->|Hb]; [congruence|done].
      * destruct (Packaging.Dependencies repo !! Packaging.Path a)
          as [version|] eqn:Hv.
        -- split.
           ++ intros [H|(Hd & b & Hb & Hp & Hi)].
              ** destruct (decide (Packaging.Path a = m)) as [<-|Hne].
                 --- rewrite lookup_insert_eq in H. simplify_eq.
                     right. split; [done|]. exists a. split; [by left|done].
                 --- rewrite lookup_insert_ne in H by done. by left.
              ** right. split; [done|]. exists b. split; [by right|done].
           ++ intros [H|(Hd & b & Hb & Hp & Hi)].
              ** destruct (decide (Packaging.Path a = m)) as [<-|Hne].
                 --- left. rewrite lookup_insert_eq.
                     apply Hsub in H. congruence.
                 --- left. by rewrite lookup_insert_ne.
              ** apply elem_of_cons in Hb as [->|Hb].
                 --- left. rewrite Hp in Hv. rewrite Hp, lookup_insert_eq.
                     congruence.
                 --- right. split; [done|]. by exists b.
        -- split; intros [H|(Hd & b & Hb & Hp & Hi)]; auto.
           ++ right. split; [done|]. exists b. split; [by right|done].
           ++ apply elem_of_cons in Hb as [->|Hb]; [congruence|].
              right. split; [done|]. by exists b.
    + unfold Packaging.onResolve. intros k w.
      destruct (Packaging.isFileFromDeps (Packaging.Importer a)); [apply Hsub|].
      destruct (Packaging.Dependencies repo !! Packaging.Path a) eqn:Hv;
        [|apply Hsub].
      destruct (decide (Packaging.Path a = k)) as [<-|Hne].
      * rewrite lookup_insert_eq. congruence.
      * rewrite lookup_insert_ne by done. apply Hsub.
Qed.

Lemma onResolve_fold_same_calls (repo : Packaging.Repository)
    (l1 l2 : list Packaging.OnResolveArgs) :
  (forall a, a ∈ l1 <-> a ∈ l2) ->
  foldl (Packaging.onResolve repo) ∅ l1 =
  foldl (Packaging.onResolve repo) ∅ l2.
Proof.
  intros Hsame. apply map_eq. intros m. apply option_eq. intros v.
  rewrite !onResolve_fold_lookup by (intros k w; by rewrite lookup_empty).
  split; (intros [H|(Hd & a & Ha & Hp)]; [by left|]);
    right; (split; [done|]); exists a; (split; [by apply Hsame|done]).
Qed.

Section BuildProperties.
Variable Join : list string -> string.
Variable Quote : string -> string.
Variable osMkdirAll : string -> goerror.
Variable ensureTmp : goerror.
Variable writePackageJSON : Packaging.PackageMetadata.t -> string -> goerror.

(** The [package.json] that [Build] writes lists a module, with a version,
    exactly when the repository declares that module with that version and
    the bundler resolved an import of it from a file outside the
    installed-dependencies directory. *)
Theorem package_json_lists_the_imported_dependencies
  (apiBuild : Packaging.BuildOptions -> list Packaging.OnResolveArgs * BuildResult)
  (repo : Packaging.Repository) (packageName : string)
  (metadata : Packaging.PackageMetadata.t) (dir m v : string) :
  In (Packaging.WritePackageJSON metadata dir)
     (Packaging.Build Join Quote osMkdirAll ensureTmp apiBuild
        writePackageJSON repo packageName).1 ->
  Packaging.PackageMetadata.Dependencies metadata !! m = Some v <->
  Packaging.Dependencies repo !! m = Some v /\
  exists pkg a,
    Packaging.Packages repo !! packageName = Some pkg /\
    a ∈ (apiBuild (Packaging.buildOptions Join repo pkg)).1 /\
    Packaging.Path a = m /\
    Packaging.isFileFromDeps (Packaging.Importer a) = false.
Proof.
  unfold Packaging.Build.
  destruct (Packaging.Packages repo !! packageName) as [pkg|] eqn:Hpkg;
    [|by intros []].
  destruct (osMkdirAll _) as [e|]; [by intros [?|[]]|].
  destruct ensureTmp as [e|]; [by intros [?|[?|[]]]|].
  destruct (apiBuild _) as [resolved result] eqn:Hb.
  assert (Hin : In (Packaging.WritePackageJSON metadata dir)
            [Packaging.MkdirAll (Packaging.packageDir Join repo pkg);
             Packaging.EnsureTmp;
             Packaging.ApiBuild (Packaging.buildOptions Join repo pkg);
             Packaging.WritePackageJSON
               (Packaging.pkgMetadata pkg
                  (foldl (Packaging.onResolve repo) ∅ resolved))
               (Packaging.packageDir Join repo pkg)] ->
          metadata = Packaging.pkgMetadata pkg
                       (foldl (Packaging.onResolve repo) ∅ resolved)).
  { intros [?|[?|[?|[?|[]]]]]; congruence. }
  intros H.
  assert (metadata = Packaging.pkgMetadata pkg
                       (foldl (Packaging.onResolve repo) ∅ resolved)) as ->.
  { apply Hin. destruct (writePackageJSON _ _); [exact H|].
    destruct (hasErrors result); exact H. }
  simpl. rewrite onResolve_fold_lookup by (intros k w; by rewrite lookup_empty).
  rewrite lookup_empty. split.
  - intros [?|(Hd & a & Ha & Hp)]; [done|]. split; [done|].
    exists pkg, a. by rewrite Hb.
  - intros (Hd & pkg' & a & Hp' & Ha & Hp). right. split; [done|].
    simplify_eq. rewrite Hb in Ha. by exists a.
Qed.

(** The bundler calls the hook in an order of its own, and as often as it
    likes: two bundlers that resolve the same imports and give the same
    result make [Build] do the same calls, with the same [package.json], and
    return the same error. *)
Theorem Build_does_not_depend_on_the_order_of_resolution
  (apiBuild1 apiBuild2 :
     Packaging.BuildOptions -> list Packaging.OnResolveArgs * BuildResult)
  (repo : Packaging.Repository) (packageName : string) :
  (forall options,
     (forall a, a ∈ (apiBuild1 options).1 <-> a ∈ (apiBuild2 options).1) /\
     (apiBuild1 options).2 = (apiBuild2 options).2) ->
  Packaging.Build Join Quote osMkdirAll ensureTmp apiBuild1
    writePackageJSON repo packageName =
  Packaging.Build Join Quote osMkdirAll ensureTmp apiBuild2
    writePackageJSON repo packageName.
Proof.
  intros Hsame. unfold Packaging.Build.
  destruct (Packaging.Packages repo !! packageName) as [pkg|]; [|done].
  destruct (osMkdirAll _); [done|]. destruct ensureTmp; [done|].
  destruct (Hsame (Packaging.buildOptions Join repo pkg)) as [H1 H2].
  destruct (apiBuild1 _) as [l1 r1], (apiBuild2 _) as [l2 r2]. simpl in *.
  subst r2. by rewrite (onResolve_fold_same_calls repo l1 l2 H1).
Qed.

(** [Build] returns nil exactly when the package exists, its directory and
    the temporary directory could be made, the bundle has no errors and the
    [package.json] could be written. *)
Theorem Build_returns_nil_iff
  (apiBuild : Packaging.BuildOptions -> list Packaging.OnResolveArgs * BuildResult)
  (repo : Packaging.Repository) (packageName : string) :
  (Packaging.Build Join Quote osMkdirAll ensureTmp apiBuild
     writePackageJSON repo packageName).2 = None <->
  exists pkg,
    Packaging.Packages repo !! packageName = Some pkg /\
    osMkdirAll (Packaging.packageDir Join repo pkg) = None /\
    ensureTmp = None /\
    Errors (apiBuild (Packaging.buildOptions Join repo pkg)).2 = [] /\
    writePackageJSON
      (Packaging.pkgMetadata pkg
         (foldl (Packaging.onResolve repo) ∅
            (apiBuild (Packaging.buildOptions Join repo pkg)).1))
      (Packaging.packageDir Join repo pkg) = None.
Proof.
  unfold Packaging.Build.
  destruct (Packaging.Packages repo !! packageName) as [pkg|] eqn:Hpkg.
  2: { split; [done|]. by intros (? & ? & _). }
  destruct (osMkdirAll _) as [e|] eqn:Hmk.
  { split; [done|]. intros (? & ? & ? & _). simplify_eq. }
  destruct ensureTmp as [e|] eqn:Htmp.
  { split; [done|]. intros (? & ? & ? & ? & _). simplify_eq. }
  destruct (apiBuild _) as [resolved result] eqn:Hb.
  destruct (writePackageJSON _ _) as [e|] eqn:Hw.
  { split; [done|]. intros (? & ? & ? & ? & ? & Hw'). simplify_eq.
    rewrite Hb in Hw'. simpl in Hw'. congruence. }
  unfold hasErrors. destruct result as [[|e errs]]; simpl.
  - split; [|done]. intros _. exists pkg. rewrite Hb. done.
  - split; [done|]. intros (? & ? & ? & ? & He & _). simplify_eq.
    rewrite Hb in He. done.
Qed.

(** Once the bundler has been run, the [package.json] is written, whatever
    the bundle's result: it is the last call, and made once.  An error of
    the bundle is reported only when that write succeeded; when the write
    fails, its error is the one returned. *)
Theorem package_json_is_written_whatever_the_bundle
  (apiBuild : Packaging.BuildOptions -> list Packaging.OnResolveArgs * BuildResult)
  (repo : Packaging.Repository) (packageName : string)
  (options : Packaging.BuildOptions) :
  let r := Packaging.Build Join Quote osMkdirAll ensureTmp apiBuild
             writePackageJSON repo packageName in
  In (Packaging.ApiBuild options) r.1 ->
  exists before metadata dir,
    r.1 = before ++ [Packaging.ApiBuild options;
                     Packaging.WritePackageJSON metadata dir] /\
    (forall m d, ~ In (Packaging.WritePackageJSON m d) before) /\
    match writePackageJSON metadata dir with
    | Some err => r.2 = Some err
    | None => r.2 = if hasErrors (apiBuild options).2
                    then Some build_error else None
    end.
Proof.
  unfold Packaging.Build.
  destruct (Packaging.Packages repo !! packageName) as [pkg|] eqn:Hpkg;
    [|by intros []].
  destruct (osMkdirAll _) as [e|]; [by intros [?|[]]|].
  destruct ensureTmp as [e|]; [by intros [?|[?|[]]]|].
  destruct (apiBuild (Packaging.buildOptions Join repo pkg))
    as [resolved result] eqn:Hb.
  set (metadata := Packaging.pkgMetadata pkg _).
  set (dir := Packaging.packageDir Join repo pkg).
  intros H.
  assert (options = Packaging.buildOptions Join repo pkg) as ->.
  { destruct (writePackageJSON metadata dir); [|destruct (hasErrors result)];
      destruct H as [?|[?|[?|[?|[]]]]]; congruence. }
  exists [Packaging.MkdirAll dir; Packaging.EnsureTmp], metadata, dir.
  rewrite Hb.
  destruct (writePackageJSON metadata dir) eqn:Hw; simpl;
    [|destruct (hasErrors result)]; simpl;
    (split_and!; [done| |done]); intros m d [?|[?|[]]]; done.
Qed.

End BuildProperties.

(** * Properties of the run command *)

Section RunProperties.
Variable Join : list string -> string.
Variable ensureTmp : goerror.
Variable tempDir : string -> string * goerror.
Variable writeFile : string -> string -> Z -> goerror.
Variable supervise : Runner.supervisor -> goerror.



End RunProperties.

Lemma setup_builds_last_and_only_on_success_witness :
  (Run_setup (String.prefix "/") (fun a b => (a ++ "/" ++ b)%string) id None
     (fun _ => None) okResult watchMode).1 =
    [XNewWatcher; XAdd "/repo/main.ts"; XBuild].
Proof.
  pose proof (setup_builds_last_and_only_on_success (String.prefix "/")
                (fun a b => (a ++ "/" ++ b)%string) id None (fun _ => None)
                okResult watchMode) as (_ & H & _).
  exact (H (init watchMode okResult) eq_refl).
Defined.

Lemma package_json_lists_the_imported_dependencies_witness :
  let metadata :=
    Packaging.pkgMetadata samplePackage
      (foldl (Packaging.onResolve sampleRepository) ∅ sampleResolved) in
  Packaging.PackageMetadata.Dependencies metadata !! "lodash"%string
    = Some "4.17.21"%string /\
  Packaging.PackageMetadata.Dependencies metadata !! "react"%string = None.
Proof.
  intros metadata.
  pose proof (package_json_lists_the_imported_dependencies slashJoin id
                (fun _ => None) None (fun _ _ => None)
                (fun _ => (sampleResolved, okResult))
                sampleRepository "app" metadata
                "/repo/out/node_modules/app") as H.
  split.
  - apply (H "lodash"%string "4.17.21"%string).
    + right; right; right; left. reflexivity.
    + split; [vm_compute; reflexivity|].
      eexists samplePackage, _. split; [vm_compute; reflexivity|].
      split; [left|split]; reflexivity.
  - destruct (Packaging.PackageMetadata.Dependencies metadata
                !! "react"%string) as [v|] eqn:Hv; [|reflexivity].
    apply (H "react"%string v) in Hv.
    + destruct Hv as (_ & pkg & a & _ & Ha & Hp & Hi). exfalso.
      simpl in Ha. apply list_elem_of_In in Ha.
      destruct Ha as [<-|[<-|[<-|[]]]]; simpl in *;
        first [discriminate Hp | discriminate Hi].
    + right; right; right; left. reflexivity.
Defined.

Lemma Build_does_not_depend_on_the_order_of_resolution_witness :
  Packaging.Build slashJoin id (fun _ => None) None
    (fun _ => (sampleResolved, okResult)) (fun _ _ => None)
    sampleRepository "app" =
  Packaging.Build slashJoin id (fun _ => None) None
    (fun _ => (reverse sampleResolved ++ sampleResolved, okResult))
    (fun _ _ => None) sampleRepository "app".
Proof.
  apply (Build_does_not_depend_on_the_order_of_resolution slashJoin id
           (fun _ => None) None (fun _ _ => None)).
  intros options. split; [|reflexivity]. intros a.
  change (a ∈ sampleResolved <-> a ∈ reverse sampleResolved ++ sampleResolved).
  rewrite elem_of_app, elem_of_reverse. tauto.
Defined.

Lemma package_json_is_written_whatever_the_bundle_witness :
  (Packaging.Build slashJoin id (fun _ => None) None
     (fun _ => (sampleResolved, failedResult))
     (fun _ _ => Some (Errno "disk full"))
     sampleRepository "app").2 = Some (Errno "disk full").
Proof.
  pose proof (package_json_is_written_whatever_the_bundle slashJoin id
                (fun _ => None) None (fun _ _ => Some (Errno "disk full"))
                (fun _ => (sampleResolved, failedResult))
                sampleRepository "app"
                (Packaging.buildOptions slashJoin sampleRepository
                   samplePackage)) as H.
  destruct H as (before & metadata & dir & _ & _ & H).
  - right; right; left. reflexivity.
  - exact H.
Defined.


